(** * Commit heat map (main.py): aggregation and rendering

    A shallow embedding of [generate_heatmap], [print_heatmap_table],
    [print_heatmap_table_plain] and [generate_html_heatmap].

    - Python [int] is [Z]; [str] is [string] (UTF-8 bytes).
    - A [datetime] truncated to midnight (what [get_git_commits] stores) is
      a record of year, month and day.
    - A Python [dict] keeps its keys in insertion order; it is an
      association list whose keys are pairwise distinct.  Equality of two
      dicts ([==]) ignores that order, and is equality of the finite maps
      they denote.
    - [print] and [Path.write_text] act on an explicit [world]. *)

From Stdlib Require Import ZArith QArith String Ascii.
From stdpp Require Import gmap strings list fin_maps pretty sorting.

Close Scope Q_scope.
Open Scope Z_scope.

(** ** Dates *)

Record datetime := mk_datetime { year : Z; month : Z; day : Z }.

#[global] Instance datetime_eq_dec : EqDecision datetime.
Proof. solve_decision. Defined.

#[global] Instance datetime_countable : Countable datetime.
Proof.
  apply (inj_countable' (λ d, (year d, month d, day d))
                        (λ t, mk_datetime t.1.1 t.1.2 t.2)).
  by intros [].
Defined.

(** [datetime.__le__] on midnight values: lexicographic on the fields. *)
Definition datetime_leb (a b : datetime) : bool :=
  if decide (year a = year b) then
    if decide (month a = month b) then bool_decide (day a ≤ day b)
    else bool_decide (month a < month b)
  else bool_decide (year a < year b).

(** ** Python dictionaries *)

Abbreviation dict K V := (list (K * V)).

Section dict.
Context {K V : Type} `{EqDecision K}.

(** [d.get(k)] *)
Fixpoint dict_get (d : dict K V) (k : K) : option V :=
  match d with
  | [] => None
  | (k', v) :: d' => if decide (k' = k) then Some v else dict_get d' k
  end.

(** [d.get(k, dflt)] *)
Definition dict_get_default (d : dict K V) (k : K) (dflt : V) : V :=
  default dflt (dict_get d k).

(** [d[k] = f(d[k])] on a [defaultdict]: a key that is present keeps its
    place, a missing key is created at the end from the default. *)
Fixpoint dict_update (f : option V → V) (k : K) (d : dict K V) : dict K V :=
  match d with
  | [] => [(k, f None)]
  | (k', v) :: d' =>
      if decide (k' = k) then (k', f (Some v)) :: d'
      else (k', v) :: dict_update f k d'
  end.

Definition keys (d : dict K V) : list K := d.*1.
Definition values (d : dict K V) : list V := d.*2.
Definition items (d : dict K V) : list (K * V) := d.
End dict.

(** [defaultdict(int)[k] += 1] *)
Definition dict_incr {K} `{EqDecision K} (k : K) (d : dict K Z) : dict K Z :=
  dict_update (λ o, default 0 o + 1) k d.

(** [sum(xs)] *)
Definition py_sum (xs : list Z) : Z := fold_left Z.add xs 0.

(** The finite map a dict denotes. *)
Definition dict_to_map {K V} `{Countable K} (d : dict K V) : gmap K V :=
  list_to_map d.

(** ** Grid aggregator: [generate_heatmap] *)

Abbreviation cell := (datetime * Z)%type.
Abbreviation commit := (datetime * Z * string)%type.
Abbreviation aggregate :=
  (dict cell Z * dict cell (dict string Z) * dict string Z)%type.

(** One iteration of the loop over [commits] (main.py, lines 83-86). *)
Definition heatmap_step (acc : aggregate) (c : commit) : aggregate :=
  let '(date, hour, repo_name) := c in
  let '(heatmap, repo_heatmap, repo_stats) := acc in
  (dict_incr (date, hour) heatmap,
   dict_update (λ o, dict_incr repo_name (default [] o)) (date, hour) repo_heatmap,
   dict_incr repo_name repo_stats).

(** [generate_heatmap] (lines 78-88): three [defaultdict]s, filled in one
    pass. *)
Definition generate_heatmap (commits : list commit) : aggregate :=
  fold_left heatmap_step commits ([], [], []).

(** ** Text helpers *)

Definition nl : string := String "010" "".
Definition esc : string := String "027" "".
Definition dq : string := String "034" "".

(** [str(n)] *)
Definition str (n : Z) : string := pretty n.

Fixpoint repeat_char (c : ascii) (n : nat) : string :=
  match n with
  | O => ""
  | S n' => String c (repeat_char c n')
  end.

(** [" " * n] *)
Definition spaces (n : nat) : string := repeat_char " " n.

(** [f"{s:>w}"], and [f"{n:w}"] for an integer once it is printed. *)
Definition rjust (w : nat) (s : string) : string :=
  spaces (w - String.length s) +:+ s.

(** Zero padding of the numeric [strftime] fields. *)
Definition zpad (w : nat) (s : string) : string :=
  repeat_char "0" (w - String.length s) +:+ s.

(** [date.strftime("%m-%d")] *)
Definition strftime_md (d : datetime) : string :=
  zpad 2 (str (month d)) +:+ "-" +:+ zpad 2 (str (day d)).

(** [date.strftime("%Y-%m-%d")]; the year is printed as it is, which is
    what every platform does for the four-digit years of commit dates. *)
Definition strftime_ymd (d : datetime) : string :=
  str (year d) +:+ "-" +:+ strftime_md d.

(** [name="value"] inside a tag. *)
Definition attr (name value : string) : string :=
  name +:+ "=" +:+ dq +:+ value +:+ dq.

(** ** Sorting *)

Section sorting.
Context {A : Type} (le : A → A → bool).

Fixpoint insert_by (x : A) (l : list A) : list A :=
  match l with
  | [] => [x]
  | y :: l' => if le x y then x :: l else y :: insert_by x l'
  end.

(** [sorted(l)] for the order [le]: stable, as Python's is. *)
Definition py_sorted (l : list A) : list A := foldr insert_by [] l.
End sorting.

(** [sorted(set(date for date, _ in heatmap.keys()))] *)
Definition sorted_dates {V} (heatmap : dict cell V) : list datetime :=
  py_sorted datetime_leb (remove_dups ((keys heatmap).*1)).

(** [range(n)] *)
Definition range (n : nat) : list Z := Z.of_nat <$> seq 0 n.

(** [enumerate(l)] *)
Definition enumerate {A} (l : list A) : list (Z * A) :=
  imap (λ i x, (Z.of_nat i, x)) l.

(** ** Scale: intensity levels

    [count <= max_count * 0.25] multiplies an [int] by a [float] and
    compares an [int] with the product.  Python compares the two by value,
    which [int_le_float] does on rationals; the product is taken exactly.
    In binary64 it is exact for every [max_count] below 2^51, far above
    the length of any list of commits ([threshold_products_exact]). *)

Definition int_le_float (n : Z) (x : Q) : bool := Qle_bool (inject_Z n) x.

(** The five ANSI colours of [get_color], in the order of its branches. *)
Definition ansi_colors : list string :=
  [ esc +:+ "[38;5;232m"; esc +:+ "[38;5;22m"; esc +:+ "[38;5;28m";
    esc +:+ "[38;5;34m"; esc +:+ "[38;5;40m" ].

(** [get_color] (lines 100-110), the closure of [print_heatmap_table] over
    [max_count]. *)
Definition get_color (max_count count : Z) : string :=
  if decide (count = 0) then esc +:+ "[38;5;232m"
  else if int_le_float count (inject_Z max_count * 0.25)%Q then esc +:+ "[38;5;22m"
  else if int_le_float count (inject_Z max_count * 0.5)%Q then esc +:+ "[38;5;28m"
  else if int_le_float count (inject_Z max_count * 0.75)%Q then esc +:+ "[38;5;34m"
  else esc +:+ "[38;5;40m".

Definition reset_color : string := esc +:+ "[0m".

(** The [level] computed for each body cell by [generate_html_heatmap]
    (lines 732-741). *)
Definition html_level (max_count count : Z) : Z :=
  if decide (count = 0) then 0
  else if int_le_float count (inject_Z max_count * 0.25)%Q then 1
  else if int_le_float count (inject_Z max_count * 0.5)%Q then 2
  else if int_le_float count (inject_Z max_count * 0.75)%Q then 3
  else 4.

(** *** Binary64 products

    A positive binary64 number is [mant * 2^expo] with [mant] of at most
    53 bits (exponent range and subnormals play no role for counts).
    [int * float] converts the integer, multiplies, and rounds each result
    to the nearest such number, ties to the even mantissa. *)

Record b64 := mk_b64 { mant : Z; expo : Z }.

(** A mantissa that rounding up took to 2^53 is renormalised. *)
Definition b64_carry (m e : Z) : b64 :=
  if decide (m = 2 ^ 53) then mk_b64 (2 ^ 52) (e + 1) else mk_b64 m e.

Definition b64_round (m e : Z) : b64 :=
  let bits := Z.log2 m + 1 in
  if decide (bits ≤ 53) then mk_b64 m e
  else
    let shift := bits - 53 in
    let q := m / 2 ^ shift in
    let r := m mod 2 ^ shift in
    let half := 2 ^ (shift - 1) in
    if decide (r < half ∨ (r = half ∧ Z.even q = true))
    then mk_b64 q (e + shift)
    else b64_carry (q + 1) (e + shift).

(** [float(n)] *)
Definition b64_of_int (n : Z) : b64 := b64_round n 0.

Definition b64_mul (x y : b64) : b64 :=
  b64_round (mant x * mant y) (expo x + expo y).

(** [n <= x] for an [int] and a [float], by value. *)
Definition int_le_b64 (n : Z) (x : b64) : bool :=
  if decide (0 ≤ expo x) then bool_decide (n ≤ mant x * 2 ^ expo x)
  else bool_decide (n * 2 ^ (- expo x) ≤ mant x).

(** The literals 0.25, 0.5 and 0.75. *)
Definition b64_quarter : b64 := mk_b64 1 (-2).
Definition b64_half : b64 := mk_b64 1 (-1).
Definition b64_three_quarters : b64 := mk_b64 3 (-2).

(** [block], the two-character body of a colour-mode cell (lines 125-130). *)
Definition cell_block (count : Z) : string :=
  if decide (count = 0) then "  "
  else if decide (count < 10) then rjust 2 (str count)
  else "++".

(** ** Effects: standard output, the file system, exceptions *)

Record world := mk_world {
  stdout : string;                 (* everything printed so far *)
  files : gmap string string       (* path ↦ contents *)
}.

Inductive exn := IndexError | ValueError.

(** A computation either returns or raises; what it did to the world
    before raising stays done. *)
Definition M (A : Type) : Type := world → (exn + A) * world.

#[global] Instance M_ret : MRet M := λ A a w, (inr a, w).

#[global] Instance M_bind : MBind M := λ A B f m w,
  match m w with
  | (inr a, w') => f a w'
  | (inl e, w') => (inl e, w')
  end.

Definition raise {A} (e : exn) : M A := λ w, (inl e, w).

(** [print(s, end=e)] *)
Definition print_end (s e : string) : M unit := λ w,
  (inr (), mk_world (stdout w +:+ s +:+ e) (files w)).

(** [print(s)] *)
Definition print (s : string) : M unit := print_end s nl.

(** [path.write_text(text, encoding='utf-8')]: the file is created or
    replaced as a whole. *)
Definition write_text (path text : string) : M unit := λ w,
  (inr (), mk_world (stdout w) (<[path := text]> (files w))).

(** [for x in l: body(x)] *)
Fixpoint for_each {A} (l : list A) (body : A → M unit) : M unit :=
  match l with
  | [] => mret ()
  | x :: l' => body x ;; for_each l' body
  end.

(** [max(xs)]: the first largest element; [ValueError] on an empty
    sequence. *)
Definition py_max (xs : list Z) : M Z :=
  match xs with
  | [] => raise ValueError
  | x :: xs' => mret (fold_left (λ best y, if decide (best < y) then y else best) xs' x)
  end.

(** [max(its, key=lambda x: x[1])] *)
Definition py_max_by_value {K} (its : list (K * Z)) : M (K * Z) :=
  match its with
  | [] => raise ValueError
  | x :: its' =>
      mret (fold_left (λ best y, if decide (best.2 < y.2) then y else best) its' x)
  end.

(** [l[0]] and [l[-1]] *)
Definition py_first {A} (l : list A) : M A :=
  match l with
  | [] => raise IndexError
  | x :: _ => mret x
  end.

Definition py_last {A} (l : list A) : M A :=
  match last l with
  | None => raise IndexError
  | Some x => mret x
  end.

(** [not d] on a dict *)
Definition dict_is_empty {K V} (d : dict K V) : bool :=
  match d with
  | [] => true
  | _ => false
  end.

Definition no_data_notice : string := "没有数据可显示".

(** [sorted(repo_stats.items(), key=lambda x: x[1], reverse=True)]: by
    count, largest first; equal counts keep their dict order. *)
Definition by_count_desc (its : list (string * Z)) : list (string * Z) :=
  py_sorted (λ a b, bool_decide (b.2 ≤ a.2)) its.

(** [sorted(repo_details.items())]: tuples compare by name, then count. *)
Definition by_name (its : list (string * Z)) : list (string * Z) :=
  py_sorted (λ a b, String.ltb a.1 b.1 || (String.eqb a.1 b.1 && bool_decide (a.2 ≤ b.2))) its.

(** [repo_stats and len(repo_stats) > 1] *)
Definition several_repos (repo_stats : option (dict string Z)) : bool :=
  match repo_stats with
  | Some d => negb (dict_is_empty d) && bool_decide (1 < Z.of_nat (length d))
  | None => false
  end.

(** ** Renderers *)

Section renderers.
(** [f"{count / total_commits * 100:.1f}"]: binary64 division and
    decimal formatting, left abstract. *)
Variable percent_1f : Z → Z → string.
(** The two long literals of [generate_html_heatmap]: the document head
    with its style sheet, up to the [<tr>] that opens the first header
    row, and the legend and script that close the document. *)
Variable html_head : string.
Variable html_tail : string.

(** [percentage = ... if total_commits > 0 else 0], then [:.1f]. *)
Definition percentage (count total_commits : Z) : string :=
  if decide (0 < total_commits) then percent_1f count total_commits else "0.0".

(** The lines both terminal renderers print below the grid (lines 134-149
    and 172-187, the same code twice). *)
Definition print_summary (heatmap : dict cell Z)
    (repo_stats : option (dict string Z)) (dates : list datetime) : M unit :=
  let total_commits := py_sum (values heatmap) in
  print (nl +:+ "总提交数: " +:+ str total_commits) ;;
  (if several_repos repo_stats then
     print (nl +:+ "各仓库提交统计:") ;;
     for_each (by_count_desc (items (default [] repo_stats))) (λ '(repo_name, count),
       print ("  " +:+ repo_name +:+ ": " +:+ str count +:+ " 次 ("
              +:+ percentage count total_commits +:+ "%)"))
   else mret ()) ;;
  d_first ← py_first dates ;
  d_last ← py_last dates ;
  print ("显示日期范围: " +:+ strftime_ymd d_first +:+ " 至 " +:+ strftime_ymd d_last) ;;
  print ("共 " +:+ str (Z.of_nat (length dates)) +:+ " 天有提交记录") ;;
  if negb (dict_is_empty heatmap) then
    max_key ← py_max_by_value (items heatmap) ;
    let '(date, hour) := max_key.1 in
    print ("最活跃时段: " +:+ strftime_ymd date +:+ " " +:+ str hour +:+ "时 ("
           +:+ str max_key.2 +:+ " 次提交)")
  else mret ().

(** [print_heatmap_table] (lines 91-149) *)
Definition print_heatmap_table (heatmap : dict cell Z)
    (repo_stats : option (dict string Z)) : M unit :=
  if dict_is_empty heatmap then
    print no_data_notice
  else
    let dates := sorted_dates heatmap in
    max_count ← (if negb (dict_is_empty heatmap) then py_max (values heatmap)
                 else mret 1) ;
    print_end (nl +:+ spaces 6) "" ;;
    for_each dates (λ date,
      let date_str := strftime_md date in
      print_end (rjust 6 date_str) "") ;;
    print "" ;;
    for_each (range 24) (λ hour,
      print_end (rjust 2 (str hour) +:+ " ") "" ;;
      for_each dates (λ date,
        let count := dict_get_default heatmap (date, hour) 0 in
        let color := get_color max_count count in
        let block := cell_block count in
        print_end (color +:+ block +:+ reset_color) "  ") ;;
      print "") ;;
    print_summary heatmap repo_stats dates.

(** [print_heatmap_table_plain] (lines 152-187) *)
Definition print_heatmap_table_plain (heatmap : dict cell Z)
    (repo_stats : option (dict string Z)) : M unit :=
  if dict_is_empty heatmap then
    print no_data_notice
  else
    let dates := sorted_dates heatmap in
    print_end (nl +:+ spaces 6) "" ;;
    for_each dates (λ date,
      let date_str := strftime_md date in
      print_end (rjust 8 date_str) "") ;;
    print "" ;;
    for_each (range 24) (λ hour,
      print_end (rjust 2 (str hour) +:+ " ") "" ;;
      for_each dates (λ date,
        let count := dict_get_default heatmap (date, hour) 0 in
        print_end (rjust 8 (str count)) "") ;;
      print "") ;;
    print_summary heatmap repo_stats dates.

(** *** The HTML document

    [html] is built by appending pieces; it is kept as the list of the
    pieces appended so far and joined when the file is written. *)

(** The scan that groups the date columns by year (lines 690-705).  The
    [year_counts] tally the source fills before it is never read, and is
    left out. *)
Record year_scan := mk_year_scan {
  current_year : option Z;            (* [None] before the first date *)
  year_start_idx : Z;
  year_colspans : list (Z * Z)
}.

Definition year_scan_step (st : year_scan) (ix : Z * datetime) : year_scan :=
  let '(i, date) := ix in
  let year := year date in
  if decide (Some year ≠ current_year st) then
    mk_year_scan (Some year) i
      (match current_year st with
       | Some cy => year_colspans st ++ [(cy, i - year_start_idx st)]
       | None => year_colspans st
       end)
  else st.

(** [year_colspans] when the scan and the flush that follows it are done. *)
Definition compute_year_colspans (dates : list datetime) : list (Z * Z) :=
  let st := fold_left year_scan_step (enumerate dates) (mk_year_scan None 0 []) in
  match current_year st with
  | Some cy => year_colspans st ++ [(cy, Z.of_nat (length dates) - year_start_idx st)]
  | None => year_colspans st
  end.

(** The corner cell that ends the first literal. *)
Definition year_corner_cell : string :=
  spaces 28 +:+ "<th " +:+ attr "class" "year-header" +:+ "></th>" +:+ nl.

Definition year_header_cell (yc : Z * Z) : string :=
  let '(year, colspan) := yc in
  spaces 28 +:+ "<th " +:+ attr "class" "year-header" +:+ " "
    +:+ attr "colspan" (str colspan) +:+ "><span " +:+ attr "class" "year-text"
    +:+ ">" +:+ str year +:+ "</span></th>" +:+ nl.

(** The cells of the year-span row after the corner. *)
Definition html_year_row (dates : list datetime) : list string :=
  year_header_cell <$> compute_year_colspans dates.

Definition date_header_cell (is_year_boundary : bool) (date : datetime) : string :=
  let date_str := strftime_md date in
  let class_attr := if is_year_boundary then " " +:+ attr "class" "date-header" else "" in
  spaces 28 +:+ "<th" +:+ class_attr +:+ ">" +:+ date_str +:+ "</th>" +:+ nl.

(** One iteration of the loop over the date columns (lines 714-721): the
    state is [prev_year] and the pieces appended so far. *)
Definition date_row_step (st : option Z * list string) (date : datetime)
    : option Z * list string :=
  let '(prev_year, html) := st in
  let current_year := year date in
  let is_year_boundary :=
    bool_decide (prev_year ≠ None ∧ Some current_year ≠ prev_year) in
  (Some current_year, html ++ [date_header_cell is_year_boundary date]).

Definition html_date_row (dates : list datetime) : list string :=
  (fold_left date_row_step dates (None, [])).2.

Definition tooltip_head (date : datetime) (hour count : Z) : string :=
  "<div " +:+ attr "class" "tooltip-header" +:+ ">" +:+ strftime_ymd date +:+ " "
    +:+ str hour +:+ "时</div><div " +:+ attr "class" "tooltip-total" +:+ ">总计: "
    +:+ str count +:+ " 次提交</div>".

Definition tooltip_row (it : string * Z) : string :=
  let '(repo_name, repo_count) := it in
  "<div " +:+ attr "class" "tooltip-row" +:+ "><span " +:+ attr "class" "tooltip-repo"
    +:+ ">" +:+ repo_name +:+ "</span><span " +:+ attr "class" "tooltip-count" +:+ ">"
    +:+ str repo_count +:+ " 次</span></div>".

Definition tooltip_text (repo_heatmap : option (dict cell (dict string Z)))
    (date : datetime) (hour count : Z) : string :=
  match repo_heatmap with
  | Some rh =>
      match dict_get rh (date, hour) with
      | Some repo_details =>
          let repo_items := tooltip_row <$> by_name (items repo_details) in
          tooltip_head date hour count +:+ "<div " +:+ attr "class" "tooltip-repos"
            +:+ ">" +:+ String.concat "" repo_items +:+ "</div>"
      | None => tooltip_head date hour count
      end
  | None => tooltip_head date hour count
  end.

Definition html_cell (heatmap : dict cell Z)
    (repo_heatmap : option (dict cell (dict string Z)))
    (max_count : Z) (date : datetime) (hour : Z) : string :=
  let count := dict_get_default heatmap (date, hour) 0 in
  let level := html_level max_count count in
  spaces 28 +:+ "<td><div " +:+ attr "class" ("cell level-" +:+ str level)
    +:+ "><div " +:+ attr "class" "tooltip" +:+ ">"
    +:+ tooltip_text repo_heatmap date hour count +:+ "</div></div></td>" +:+ nl.

Definition html_body_row (heatmap : dict cell Z)
    (repo_heatmap : option (dict cell (dict string Z)))
    (max_count : Z) (dates : list datetime) (hour : Z) : list string :=
  [spaces 24 +:+ "<tr><td>" +:+ rjust 2 (str hour) +:+ "</td>" +:+ nl]
  ++ ((λ date, html_cell heatmap repo_heatmap max_count date hour) <$> dates)
  ++ [spaces 24 +:+ "</tr>" +:+ nl].

Definition html_repo_stats (repo_stats : option (dict string Z))
    (total_commits : Z) : list string :=
  if several_repos repo_stats then
    [spaces 12 +:+ "<p>各仓库提交统计:</p><ul>" +:+ nl]
    ++ ((λ '(repo_name, count),
           spaces 16 +:+ "<li><strong>" +:+ repo_name +:+ "</strong>: " +:+ str count
             +:+ " 次 (" +:+ percentage count total_commits +:+ "%)</li>" +:+ nl)
        <$> by_count_desc (items (default [] repo_stats)))
    ++ [spaces 12 +:+ "</ul>" +:+ nl]
  else [].

(** [generate_html_heatmap] (lines 190-928) *)
Definition generate_html_heatmap (heatmap : dict cell Z) (output_path : string)
    (repo_stats : option (dict string Z))
    (repo_heatmap : option (dict cell (dict string Z))) : M unit :=
  if dict_is_empty heatmap then
    print no_data_notice
  else
    let dates := sorted_dates heatmap in
    max_count ← (if negb (dict_is_empty heatmap) then py_max (values heatmap)
                 else mret 1) ;
    let html := [html_head; year_corner_cell] in
    let html := html ++ html_year_row dates in
    let html := html ++ [spaces 24 +:+ "</tr>" +:+ nl +:+ spaces 24 +:+ "<tr>" +:+ nl
                         +:+ spaces 28 +:+ "<th></th>" +:+ nl] in
    let html := html ++ html_date_row dates in
    let html := html ++ [spaces 24 +:+ "</tr>" +:+ nl +:+ spaces 20 +:+ "</thead>" +:+ nl
                         +:+ spaces 20 +:+ "<tbody>" +:+ nl] in
    let html := html ++ (range 24 ≫= html_body_row heatmap repo_heatmap max_count dates) in
    let html := html ++ [spaces 20 +:+ "</tbody>" +:+ nl +:+ spaces 16 +:+ "</table>" +:+ nl
                         +:+ spaces 12 +:+ "</div>" +:+ nl +:+ spaces 8 +:+ "</div>" +:+ nl
                         +:+ spaces 8 +:+ nl
                         +:+ spaces 8 +:+ "<div " +:+ attr "class" "stats" +:+ ">" +:+ nl] in
    let total_commits := py_sum (values heatmap) in
    let html := html ++ [spaces 12 +:+ "<p>总提交数: <strong>" +:+ str total_commits
                         +:+ "</strong></p>" +:+ nl] in
    let html := html ++ html_repo_stats repo_stats total_commits in
    d_first ← py_first dates ;
    d_last ← py_last dates ;
    let html := html ++ [spaces 12 +:+ "<p>显示日期范围: <strong>" +:+ strftime_ymd d_first
                         +:+ "</strong> 至 <strong>" +:+ strftime_ymd d_last
                         +:+ "</strong></p>" +:+ nl] in
    let html := html ++ [spaces 12 +:+ "<p>共 <strong>" +:+ str (Z.of_nat (length dates))
                         +:+ "</strong> 天有提交记录</p>" +:+ nl] in
    html ← (if negb (dict_is_empty heatmap) then
              max_key ← py_max_by_value (items heatmap) ;
              let '(date, hour) := max_key.1 in
              mret (html ++ [spaces 12 +:+ "<p>最活跃时段: <strong>" +:+ strftime_ymd date
                             +:+ " " +:+ str hour +:+ "时</strong> (" +:+ str max_key.2
                             +:+ " 次提交)</p>" +:+ nl])
            else mret html) ;
    let html := html ++ [html_tail] in
    write_text output_path (String.concat "" html) ;;
    print (nl +:+ "HTML 文件已生成: " +:+ output_path).
End renderers.

(** ** The process: standard error, exit, the outside world

    [get_git_commits] and [main] also write to standard error, end the
    process with [sys.exit], and ask the outside world: they run git, read
    the clock, query paths and the terminal.  The outside world is a state
    [E] with the operations of an [environment]; library functions that
    depend on nothing else ([strptime], date arithmetic, path names) are
    its pure fields. *)

(** A naive [datetime] with its time of day. *)
Record timestamp := mk_timestamp {
  ts_year : Z; ts_month : Z; ts_day : Z;
  ts_hour : Z; ts_minute : Z; ts_second : Z; ts_microsecond : Z
}.

(** [a < b] on lists of numbers, first difference decides. *)
Fixpoint lex_ltb (a b : list Z) : bool :=
  match a, b with
  | x :: a', y :: b' => if decide (x = y) then lex_ltb a' b' else bool_decide (x < y)
  | [], _ :: _ => true
  | _, [] => false
  end.

Definition timestamp_fields (t : timestamp) : list Z :=
  [ts_year t; ts_month t; ts_day t; ts_hour t; ts_minute t; ts_second t;
   ts_microsecond t].

(** [a < b] on naive datetimes *)
Definition timestamp_ltb (a b : timestamp) : bool :=
  lex_ltb (timestamp_fields a) (timestamp_fields b).

(** What [subprocess.run(..., check=True)] comes to: the captured output,
    [CalledProcessError] with its text, [FileNotFoundError], or another
    exception, which nothing catches. *)
Inductive run_result :=
  | Completed (stdout : list N)
  | CalledProcessError (message : string)
  | FileNotFoundError
  | RunRaised (exception : string).

Record environment (E : Type) := mk_environment {
  (* subprocess.run(cmd, cwd=repo_path, capture_output=True, text=True, ...) *)
  run_git : list string → string → E → run_result * E;
  (* datetime.now() *)
  datetime_now : E → timestamp * E;
  (* Path(s).resolve() *)
  path_resolve : string → E → string;
  (* p.exists() *)
  path_exists : string → E → bool;
  (* Path.cwd() *)
  path_cwd : E → string;
  (* sys.stdout.isatty() *)
  stdout_isatty : E → bool;
  (* datetime.strptime(s, "%Y-%m-%d %H:%M:%S"); None for ValueError *)
  strptime : list N → option timestamp;
  (* t - timedelta(days=n); None for OverflowError *)
  minus_days : timestamp → Z → option timestamp;
  (* p.name *)
  path_name : string → string;
  (* p / s *)
  path_join : string → string → string;
  (* Path(s) *)
  path_of : string → string
}.
Arguments run_git {E}.
Arguments datetime_now {E}.
Arguments path_resolve {E}.
Arguments path_exists {E}.
Arguments path_cwd {E}.
Arguments stdout_isatty {E}.
Arguments strptime {E}.
Arguments minus_days {E}.
Arguments path_name {E}.
Arguments path_join {E}.
Arguments path_of {E}.

Record proc (E : Type) := mk_proc {
  p_world : world;          (* standard output and the files written *)
  p_stderr : string;        (* everything printed to standard error *)
  p_env : E                 (* the outside world *)
}.
Arguments mk_proc {E}.
Arguments p_world {E}.
Arguments p_stderr {E}.
Arguments p_env {E}.

(** How a computation ends when it does not return. *)
Inductive failure :=
  | SystemExit (code : Z)
  | Uncaught (e : exn)
  | OverflowError
  | ExternalError (exception : string).

Definition P (E A : Type) : Type := proc E → (failure + A) * proc E.

#[global] Instance P_ret {E} : MRet (P E) := λ A a s, (inr a, s).

#[global] Instance P_bind {E} : MBind (P E) := λ A B f m s,
  match m s with
  | (inr a, s') => f a s'
  | (inl e, s') => (inl e, s')
  end.

Definition fail {E A} (f : failure) : P E A := λ s, (inl f, s).

(** [sys.exit(code)] *)
Definition sys_exit {E A} (code : Z) : P E A := fail (SystemExit code).

(** A renderer run inside the process. *)
Definition lift {E A} (m : M A) : P E A := λ s,
  match m (p_world s) with
  | (inr a, w') => (inr a, mk_proc w' (p_stderr s) (p_env s))
  | (inl e, w') => (inl (Uncaught e), mk_proc w' (p_stderr s) (p_env s))
  end.

(** [print(s, file=sys.stderr)] *)
Definition eprint {E} (s : string) : P E unit := λ st,
  (inr (), mk_proc (p_world st) (p_stderr st +:+ s +:+ nl) (p_env st)).

(** A query that leaves the outside world as it is. *)
Definition ask {E A} (q : E → A) : P E A := λ s, (inr (q (p_env s)), s).

(** A call that may change the outside world. *)
Definition call {E A} (c : E → A * E) : P E A := λ s,
  let '(a, e') := c (p_env s) in
  (inr a, mk_proc (p_world s) (p_stderr s) e').

(** [for x in l: acc = body(acc, x)] *)
Fixpoint for_fold {E A B} (l : list A) (acc : B) (body : B → A → P E B) : P E B :=
  match l with
  | [] => mret acc
  | x :: l' => acc' ← body acc x ; for_fold l' acc' body
  end.

(** *** Text from git: a Python [str] as its code points *)

(** [c.isspace()], the characters [str.strip()] removes. *)
Definition is_space (c : N) : bool :=
  bool_decide (c ∈ [9; 10; 11; 12; 13; 28; 29; 30; 31; 32; 133; 160; 5760;
                    8192; 8193; 8194; 8195; 8196; 8197; 8198; 8199; 8200;
                    8201; 8202; 8232; 8233; 8239; 8287; 12288]%N).

Fixpoint drop_spaces (s : list N) : list N :=
  match s with
  | c :: s' => if is_space c then drop_spaces s' else s
  | [] => []
  end.

(** [s.strip()] *)
Definition strip (s : list N) : list N :=
  reverse (drop_spaces (reverse (drop_spaces s))).

(** [s.split(sep)] for a one-character separator: never empty. *)
Fixpoint split_on (sep : N) (s : list N) : list (list N) :=
  match s with
  | [] => [[]]
  | c :: s' =>
      if decide (c = sep) then [] :: split_on sep s'
      else match split_on sep s' with
           | piece :: pieces => (c :: piece) :: pieces
           | [] => [[c]]
           end
  end.

(** [s.split(sep, 1)]: cut at the first separator, if there is one. *)
Fixpoint split_once (sep : N) (s : list N) : list (list N) :=
  match s with
  | [] => [[]]
  | c :: s' =>
      if decide (c = sep) then [[]; s']
      else match split_once sep s' with
           | piece :: pieces => (c :: piece) :: pieces
           | [] => [[c]]
           end
  end.

(** [o] as a condition, for an optional string or number *)
Definition nonempty_str (o : option string) : option string :=
  match o with
  | Some s => if decide (s = "") then None else Some s
  | None => None
  end.

(** The command [get_git_commits] builds (lines 20-27). *)
Definition git_log_cmd (since until author : option string) : list string :=
  ["git"; "log"; "--format=%ai|%an"; "--all"]
  ++ (match nonempty_str since with Some s => ["--since"; s] | None => [] end)
  ++ (match nonempty_str until with Some s => ["--until"; s] | None => [] end)
  ++ (match nonempty_str author with Some s => ["--author"; s] | None => [] end).

Section ingestion.
Context {E : Type} (env : environment E).

(** The record one line of the log gives, if any (lines 47-66): the line
    is cut at the first [|]; the first 19 characters of what stands before
    it are parsed; a timestamp before the cut-off is dropped. *)
Definition line_commit (cutoff_date : option timestamp) (repo_name : string)
    (line : list N) : option commit :=
  if decide (line = []) then None
  else
    let parts := split_once 124 line in
    if decide (length parts < 2)%nat then None
    else
      let dt_str := default [] (parts !! 0%nat) in
      match strptime env (take 19 dt_str) with
      | None => None                                  (* ValueError: continue *)
      | Some dt =>
          match cutoff_date with
          | Some cutoff =>
              if timestamp_ltb dt cutoff then None
              else Some (mk_datetime (ts_year dt) (ts_month dt) (ts_day dt),
                         ts_hour dt, repo_name)
          | None =>
              Some (mk_datetime (ts_year dt) (ts_month dt) (ts_day dt),
                    ts_hour dt, repo_name)
          end
      end.

(** One iteration of the loop over the lines. *)
Definition parse_step (cutoff_date : option timestamp) (repo_name : string)
    (commits : list commit) (line : list N) : list commit :=
  match line_commit cutoff_date repo_name line with
  | Some c => commits ++ [c]
  | None => commits
  end.

(** The body of the [try] once git has answered (lines 39-68). *)
Definition parse_log (repo_name : string) (days : option Z) (stdout : list N)
    : P E (list commit) :=
  cutoff_date ← (match days with
                 | Some d =>
                     if decide (d = 0) then mret None
                     else
                       now ← call (datetime_now env) ;
                       match minus_days env now d with
                       | Some t => mret (Some t)
                       | None => fail OverflowError
                       end
                 | None => mret None
                 end) ;
  if decide (stdout = []) then mret []
  else mret (fold_left (parse_step cutoff_date repo_name)
                       (split_on 10 (strip stdout)) []).

(** [get_git_commits] (lines 14-75) *)
Definition get_git_commits (repo_path : string) (repo_name : option string)
    (days : option Z) (since until author : option string) : P E (list commit) :=
  let repo_name := default (path_name env repo_path) repo_name in
  let cmd := git_log_cmd since until author in
  result ← call (run_git env cmd repo_path) ;
  match result with
  | Completed stdout => parse_log repo_name days stdout
  | CalledProcessError e =>
      eprint ("警告: 无法获取仓库 " +:+ repo_name +:+ " 的提交历史: " +:+ e) ;;
      mret []
  | FileNotFoundError =>
      eprint "错误: 未找到 git 命令，请确保已安装 Git" ;;
      sys_exit 1
  | RunRaised name => fail (ExternalError name)
  end.
End ingestion.

(** ** The command line: [main] (lines 931-1013) *)

(** What [parser.parse_args()] returns. *)
Record cli_args := mk_cli_args {
  arg_html : option string;
  arg_repos : option (list string);
  arg_days : option Z;
  arg_since : option string;
  arg_until : option string;
  arg_author : option string
}.

Section command_line.
Context {E : Type} (env : environment E).
Variable percent_1f : Z → Z → string.
Variable html_head : string.
Variable html_tail : string.

(** One iteration of the loop over [args.repos] (lines 967-975). *)
Definition resolve_step (repo_paths : list string) (repo_str : string)
    : P E (list string) :=
  repo_path ← ask (path_resolve env repo_str) ;
  found ← ask (path_exists env repo_path) ;
  if negb found then
    eprint ("警告: 仓库路径不存在: " +:+ repo_path) ;; mret repo_paths
  else
    is_repo ← ask (path_exists env (path_join env repo_path ".git")) ;
    if negb is_repo then
      eprint ("警告: 不是有效的 Git 仓库: " +:+ repo_path) ;; mret repo_paths
    else mret (repo_paths ++ [repo_path]).

(** The repositories to analyse (lines 964-987). *)
Definition resolve_repos (repos : option (list string)) : P E (list string) :=
  repo_paths ← (match repos with
                | Some (repo_str :: rest) =>
                    for_fold (repo_str :: rest) [] resolve_step
                | _ =>
                    repo_path ← ask (path_cwd env) ;
                    is_repo ← ask (path_exists env (path_join env repo_path ".git")) ;
                    if (is_repo : bool) then mret [repo_path]
                    else
                      eprint "错误: 当前目录不是 Git 仓库，请使用 --repo 参数指定仓库路径" ;;
                      sys_exit 1
                end : P E (list string)) ;
  match repo_paths with
  | [] => eprint "错误: 没有有效的仓库路径" ;; sys_exit 1
  | _ => mret repo_paths
  end.

(** One iteration of the loop over [repo_paths] (lines 990-996). *)
Definition collect_step (args : cli_args) (all_commits : list commit)
    (repo_path : string) : P E (list commit) :=
  let repo_name := path_name env repo_path in
  lift (print ("正在分析仓库: " +:+ repo_path +:+ " (" +:+ repo_name +:+ ")")) ;;
  commits ← get_git_commits env repo_path (Some repo_name) (arg_days args)
              (arg_since args) (arg_until args) (arg_author args) ;
  let all_commits := all_commits ++ commits in
  lift (print ("  找到 " +:+ str (Z.of_nat (length commits)) +:+ " 个提交")) ;;
  mret all_commits.

Definition main (args : cli_args) : P E unit :=
  repo_paths ← resolve_repos (arg_repos args) ;
  all_commits ← for_fold repo_paths [] (collect_step args) ;
  match all_commits with
  | [] => lift (print "未找到任何提交记录")
  | _ =>
      lift (print (nl +:+ "总共找到 " +:+ str (Z.of_nat (length all_commits))
                   +:+ " 个提交")) ;;
      let '(heatmap, repo_heatmap, repo_stats) := generate_heatmap all_commits in
      match nonempty_str (arg_html args) with
      | Some html =>
          let output_path := path_of env html in
          lift (generate_html_heatmap percent_1f html_head html_tail heatmap
                  output_path (Some repo_stats) (Some repo_heatmap))
      | None =>
          tty ← ask (stdout_isatty env) ;
          if (tty : bool) then lift (print_heatmap_table percent_1f heatmap (Some repo_stats))
          else lift (print_heatmap_table_plain percent_1f heatmap (Some repo_stats))
      end
  end.
End command_line.

(** ** Notions the properties are stated with *)

(** The three finite maps an aggregate denotes; two aggregates are equal
    as Python values exactly when these are equal. *)
Definition heatmap_of (a : aggregate) : gmap cell Z := dict_to_map a.1.1.
Definition repo_heatmap_of (a : aggregate) : gmap cell (gmap string Z) :=
  dict_to_map <$> dict_to_map a.1.2.
Definition repo_stats_of (a : aggregate) : gmap string Z := dict_to_map a.2.

(** Field-wise sum of two count maps, the merge step the specification
    describes for partial aggregates (the source has no such function): a
    key of either map is a key of the sum, with the counts added. *)
Definition merge_counts {K} `{Countable K} (m1 m2 : gmap K Z) : gmap K Z :=
  union_with (λ a b, Some (a + b)) m1 m2.

Definition merge_nested (m1 m2 : gmap cell (gmap string Z))
    : gmap cell (gmap string Z) :=
  union_with (λ a b, Some (merge_counts a b)) m1 m2.

Abbreviation aggregate_maps :=
  (gmap cell Z * gmap cell (gmap string Z) * gmap string Z)%type.

Definition maps_of (a : aggregate) : aggregate_maps :=
  (heatmap_of a, repo_heatmap_of a, repo_stats_of a).

(** Field-wise sum of two partial aggregates. *)
Definition merge_aggregates (a b : aggregate_maps) : aggregate_maps :=
  (merge_counts a.1.1 b.1.1, merge_nested a.1.2 b.1.2, merge_counts a.2 b.2).

(** What one loop iteration of [generate_heatmap] does to the maps the
    three dicts denote. *)
Definition bump {K} `{Countable K} (k : K) (m : gmap K Z) : gmap K Z :=
  partial_alter (λ o, Some (default 0 o + 1)) k m.

Definition bump_nested (key : cell) (repo_name : string)
    (m : gmap cell (gmap string Z)) : gmap cell (gmap string Z) :=
  partial_alter (λ o, Some (bump repo_name (default ∅ o))) key m.

Definition maps_step (m : aggregate_maps) (c : commit) : aggregate_maps :=
  let '(date, hour, repo_name) := c in
  (bump (date, hour) m.1.1, bump_nested (date, hour) repo_name m.1.2,
   bump repo_name m.2).

(** The contiguous runs of a list of years, each with its length: a year
    put in front of the runs of the rest joins the first run when that run
    has the same year, and starts a run of its own otherwise. *)
Definition push_run (y n : Z) (rs : list (Z * Z)) : list (Z * Z) :=
  match rs with
  | (y', m) :: rs' => if decide (y = y') then (y, n + m) :: rs' else (y, n) :: rs
  | [] => [(y, n)]
  end.

Fixpoint year_runs (ys : list Z) : list (Z * Z) :=
  match ys with
  | [] => []
  | y :: ys' => push_run y 1 (year_runs ys')
  end.

(** The columns a list of (year, colspan) header cells spans. *)
Definition spanned_years (cs : list (Z * Z)) : list Z :=
  cs ≫= λ '(y, n), replicate (Z.to_nat n) y.

(** No two neighbouring header cells carry the same year. *)
Fixpoint neighbours_differ (cs : list (Z * Z)) : Prop :=
  match cs with
  | c1 :: (c2 :: _) as cs' => c1.1 ≠ c2.1 ∧ neighbours_differ cs'
  | _ => True
  end.

#[global] Instance Qle_decision (x y : Q) : Decision (x <= y)%Q.
Proof. unfold Qle. apply _. Defined.

(** The scale as the specification words it: 0 for an empty cell, then the
    quarters of [max_count], each upper bound included. *)
Definition level_of (count max_count : Z) : Z :=
  if decide (count = 0) then 0
  else if decide (inject_Z count <= 0.25 * inject_Z max_count)%Q then 1
  else if decide (inject_Z count <= 0.5 * inject_Z max_count)%Q then 2
  else if decide (inject_Z count <= 0.75 * inject_Z max_count)%Q then 3
  else 4.

(** The level a terminal colour stands for: its place in [ansi_colors]. *)
Definition color_level (color : string) : option Z :=
  (λ p, Z.of_nat p.1) <$> list_find (λ c, c = color) ansi_colors.

(** Whether column [i] starts a new calendar year: it has a column before
    it, and that column's year is another one. *)
Definition starts_new_year (dates : list datetime) (i : nat) : bool :=
  match i with
  | O => false
  | S j =>
      match dates !! j, dates !! i with
      | Some p, Some d => bool_decide (year p ≠ year d)
      | _, _ => false
      end
  end.

(** A computation that returns normally, whatever the world, after it
    has printed some text and done nothing else. *)
Definition prints_only (m : M unit) : Prop :=
  ∀ w, ∃ out, m w = (inr (), mk_world (stdout w +:+ out) (files w)).

(** How many records of a list satisfy a test. *)
Definition count_of {A} (P : A → Prop) `{∀ x, Decision (P x)} (l : list A) : Z :=
  Z.of_nat (length (filter P l)).

(** A counter after [n] more increments: it is still missing when there
    were none, and stands at its old value (0 when missing) plus [n]
    otherwise. *)
Definition add_count (o : option Z) (n : Z) : option Z :=
  if decide (n = 0) then o else Some (default 0 o + n).

(** What a computation of the process may do: whatever the state it
    starts in, it ends in a state that [R] relates to it; when it returns,
    its result satisfies [Q]; when it does not, it fails in a way [ok]
    admits. *)
Definition keeps {E A} (R : proc E → proc E → Prop) (ok : failure → Prop)
    (Q : A → Prop) (m : P E A) : Prop :=
  ∀ s, R s (m s).2 ∧ match (m s).1 with
                     | inl f => ok f
                     | inr a => Q a
                     end.

(** Standard output and the files are as they were. *)
Definition same_world {E} (s s' : proc E) : Prop := p_world s' = p_world s.

(** The files are as they were. *)
Definition same_files {E} (s s' : proc E) : Prop :=
  files (p_world s') = files (p_world s).

(** No file but the one at [path] has changed. *)
Definition only_file {E} (path : string) (s s' : proc E) : Prop :=
  ∀ p, p ≠ path → files (p_world s') !! p = files (p_world s) !! p.

(** The ways [get_git_commits] and [main] end other than by returning:
    [sys.exit(1)], and the two exceptions that nothing catches, from the
    date arithmetic of [--days] and from [subprocess.run]. *)
Definition outside_failure (f : failure) : Prop :=
  f = SystemExit 1 ∨ f = OverflowError ∨ ∃ name, f = ExternalError name.

(** Whether [main] accepts a [--repo] argument: the resolved path exists
    and holds a [.git]. *)
Definition valid_repo {E} (env : environment E) (e : E) (repo_str : string) : bool :=
  path_exists env (path_resolve env repo_str e) e
  && path_exists env (path_join env (path_resolve env repo_str e) ".git") e.

(** *** A small outside world for examples

    Text is ASCII; [strptime] reads the zero-padded form git prints; git
    finds three commits in [/r/a], fails in [/r/b] and is missing
    elsewhere. *)

Definition codes (s : string) : list N := N_of_ascii <$> list_ascii_of_string s.

Definition example_number (cs : list N) : option Z :=
  foldl (λ acc c, a ← acc ;
                  if decide (48 ≤ c ≤ 57)%N then Some (10 * a + (Z.of_N c - 48))
                  else None)
        (Some 0) cs.

Definition example_strptime (s : list N) : option timestamp :=
  if decide (length s = 19%nat) then
    y ← example_number (take 4 s) ;
    m ← example_number (take 2 (drop 5 s)) ;
    d ← example_number (take 2 (drop 8 s)) ;
    hh ← example_number (take 2 (drop 11 s)) ;
    mm ← example_number (take 2 (drop 14 s)) ;
    ss ← example_number (take 2 (drop 17 s)) ;
    Some (mk_timestamp y m d hh mm ss 0)
  else None.

Definition example_log : list N :=
  codes ("2024-01-01 09:30:00 +0800|Alice" +:+ nl
         +:+ "2024-01-01 10:00:00 +0800|Bob" +:+ nl
         +:+ "not a commit" +:+ nl
         +:+ "2023-12-31 23:59:59 +0000|Al|ice" +:+ nl +:+ nl).

Definition example_env : environment unit :=
  mk_environment unit
    (λ cmd cwd e,
       (if decide (cwd = "/r/a") then Completed example_log
        else if decide (cwd = "/r/b") then CalledProcessError "exit status 128"
        else FileNotFoundError, e))
    (λ e, (mk_timestamp 2024 1 2 0 0 0 5, e))
    (λ s e, "/r/" +:+ s)
    (λ p e, bool_decide (p ∈ ["/r/a"; "/r/a/.git"; "/r/b"; "/r/b/.git"; "/r/c"]))
    (λ e, "/r/a")
    (λ e, false)
    example_strptime
    (λ t n, Some (mk_timestamp (ts_year t) (ts_month t) (ts_day t - n)
                    (ts_hour t) (ts_minute t) (ts_second t) (ts_microsecond t)))
    (λ p, p)
    (λ p s, p +:+ "/" +:+ s)
    (λ s, s).

(** The same world with a git that fails in every repository. *)
Definition example_env_git_failing : environment unit :=
  mk_environment unit
    (λ cmd cwd e, (CalledProcessError "exit status 128", e))
    (datetime_now example_env) (path_resolve example_env)
    (path_exists example_env) (path_cwd example_env) (stdout_isatty example_env)
    (strptime example_env) (minus_days example_env) (path_name example_env)
    (path_join example_env) (path_of example_env).

Definition example_start : proc unit := mk_proc (mk_world "" ∅) "" ().

(** * Properties *)

(** ** Dictionaries *)

Section dict_facts.
Context {K V : Type} `{Countable K}.

Lemma dict_get_update (f : option V → V) (k k' : K) (d : dict K V) :
  dict_get (dict_update f k d) k' =
  if decide (k = k') then Some (f (dict_get d k)) else dict_get d k'.
Proof.
  induction d as [|[k0 v] d IH]; simpl.
  - by destruct (decide (k = k')).
  - destruct (decide (k0 = k)) as [->|Hne]; simpl.
    + by destruct (decide (k = k')).
    + destruct (decide (k0 = k')) as [->|Hne'].
      * by rewrite decide_False by congruence.
      * apply IH.
Qed.

Lemma dict_to_map_lookup (d : dict K V) (k : K) :
  dict_to_map d !! k = dict_get d k.
Proof.
  unfold dict_to_map. induction d as [|[k0 v] d IH]; simpl; [done|].
  destruct (decide (k0 = k)) as [->|Hne].
  - by rewrite lookup_insert_eq.
  - by rewrite lookup_insert_ne.
Qed.

Lemma dict_to_map_update (f : option V → V) (k : K) (d : dict K V) :
  dict_to_map (dict_update f k d) =
  partial_alter (λ o, Some (f o)) k (dict_to_map d).
Proof.
  apply map_eq. intros k'.
  rewrite dict_to_map_lookup, dict_get_update, lookup_partial_alter.
  destruct (decide (k = k')) as [->|]; by rewrite ?dict_to_map_lookup.
Qed.

Lemma keys_update_NoDup (f : option V → V) (k : K) (d : dict K V) :
  NoDup (keys d) → NoDup (keys (dict_update f k d)).
Proof.
  unfold keys. induction d as [|[k0 v] d IH]; simpl; intros Hnd.
  - apply NoDup_singleton.
  - apply NoDup_cons in Hnd as [Hnotin Hnd].
    destruct (decide (k0 = k)) as [->|Hne]; simpl.
    + by apply NoDup_cons.
    + apply NoDup_cons. split; [|by apply IH].
      intros Hin. apply Hnotin. clear -Hin Hne.
      induction d as [|[k1 v1] d IH]; simpl in *.
      * apply list_elem_of_singleton in Hin. congruence.
      * destruct (decide (k1 = k)); simpl in *; [done|].
        apply elem_of_cons in Hin as [->|Hin]; [left|right; by apply IH].
Qed.
End dict_facts.

(** ** Conservation of [generate_heatmap] *)

Lemma fold_left_add_acc (xs : list Z) (a : Z) :
  fold_left Z.add xs a = a + py_sum xs.
Proof.
  unfold py_sum. revert a. induction xs as [|x xs IH]; intros a; simpl; [lia|].
  rewrite (IH (a + x)), (IH (0 + x)). lia.
Qed.

Lemma py_sum_cons (x : Z) (xs : list Z) : py_sum (x :: xs) = x + py_sum xs.
Proof. unfold py_sum at 1. simpl. apply fold_left_add_acc. Qed.

Lemma py_sum_values_incr {K} `{EqDecision K} (k : K) (d : dict K Z) :
  py_sum (values (dict_incr k d)) = py_sum (values d) + 1.
Proof.
  unfold dict_incr, values.
  induction d as [|[k0 v] d IH]; [done|].
  cbn [dict_update].
  destruct (decide (k0 = k)); rewrite !fmap_cons, !py_sum_cons;
    cbn [snd from_option id].
  - lia.
  - rewrite IH. lia.
Qed.

Lemma heatmap_step_sums (acc : aggregate) (c : commit) :
  py_sum (values (heatmap_step acc c).1.1) = py_sum (values acc.1.1) + 1 ∧
  py_sum (values (heatmap_step acc c).2) = py_sum (values acc.2) + 1.
Proof.
  destruct c as [[date hour] repo_name], acc as [[hm rh] rs]; simpl.
  split; apply py_sum_values_incr.
Qed.

Lemma heatmap_step_cells (acc : aggregate) (c : commit) :
  (∀ key, dict_get acc.1.1 key
          = (λ by_repo, py_sum (values by_repo)) <$> dict_get acc.1.2 key) →
  ∀ key, dict_get (heatmap_step acc c).1.1 key
         = (λ by_repo, py_sum (values by_repo)) <$> dict_get (heatmap_step acc c).1.2 key.
Proof.
  destruct c as [[date hour] repo_name], acc as [[hm rh] rs]; simpl.
  intros Hinv key. unfold dict_incr at 1. rewrite !dict_get_update.
  destruct (decide ((date, hour) = key)) as [<-|]; [|apply Hinv].
  simpl. f_equal. rewrite py_sum_values_incr, (Hinv (date, hour)).
  by destruct (dict_get rh (date, hour)).
Qed.

Lemma heatmap_fold_conservation (commits : list commit) (acc : aggregate) :
  let res := fold_left heatmap_step commits acc in
  py_sum (values res.1.1) = py_sum (values acc.1.1) + Z.of_nat (length commits) ∧
  py_sum (values res.2) = py_sum (values acc.2) + Z.of_nat (length commits) ∧
  ((∀ key, dict_get acc.1.1 key
           = (λ by_repo, py_sum (values by_repo)) <$> dict_get acc.1.2 key) →
   ∀ key, dict_get res.1.1 key
          = (λ by_repo, py_sum (values by_repo)) <$> dict_get res.1.2 key).
Proof.
  revert acc. induction commits as [|c commits IH]; intros acc; simpl.
  - repeat split; [lia|lia|done].
  - destruct (IH (heatmap_step acc c)) as (H1 & H2 & H3).
    destruct (heatmap_step_sums acc c) as [S1 S2].
    repeat split.
    + rewrite H1, S1. lia.
    + rewrite H2, S2. lia.
    + intros Hinv. apply H3. by apply heatmap_step_cells.
Qed.

(** C1. Conservation: the per-cell totals and the per-source totals of the
    aggregate both add up to the number of commit records, and for every
    cell the total of the cell is the sum of its per-source counts (the
    two cell-indexed dicts have the same keys). *)
Theorem generate_heatmap_conservation (commits : list commit) :
  let heatmap := (generate_heatmap commits).1.1 in
  let repo_heatmap := (generate_heatmap commits).1.2 in
  let repo_stats := (generate_heatmap commits).2 in
  py_sum (values heatmap) = py_sum (values repo_stats) ∧
  py_sum (values repo_stats) = Z.of_nat (length commits) ∧
  ∀ key, dict_get heatmap key
         = (λ by_repo, py_sum (values by_repo)) <$> dict_get repo_heatmap key.
Proof.
  intros heatmap repo_heatmap repo_stats.
  destruct (heatmap_fold_conservation commits ([], [], [])) as (H1 & H2 & H3).
  fold (generate_heatmap commits) in H1, H2, H3.
  fold heatmap in H1, H3. fold repo_stats in H2. fold repo_heatmap in H3.
  simpl in H1, H2. repeat split.
  - rewrite H1, H2. done.
  - rewrite H2. unfold py_sum. simpl. lia.
  - apply H3. done.
Qed.

Lemma generate_heatmap_NoDup (commits : list commit) :
  NoDup (keys (generate_heatmap commits).1.1) ∧
  NoDup (keys (generate_heatmap commits).1.2) ∧
  NoDup (keys (generate_heatmap commits).2).
Proof.
  unfold generate_heatmap.
  assert (Hinit : NoDup (keys (([], [], []) : aggregate).1.1) ∧
                  NoDup (keys (([], [], []) : aggregate).1.2) ∧
                  NoDup (keys (([], [], []) : aggregate).2))
    by (repeat split; apply NoDup_nil_2).
  revert Hinit. generalize (([], [], []) : aggregate).
  induction commits as [|c commits IH]; intros acc Hacc; simpl; [done|].
  apply IH. destruct c as [[date hour] repo_name], acc as [[hm rh] rs]; simpl in *.
  destruct Hacc as (? & ? & ?).
  repeat split; by apply keys_update_NoDup.
Qed.

(** The dicts [generate_heatmap] returns have pairwise distinct keys. *)
Lemma generate_heatmap_keys_NoDup (commits : list commit) :
  NoDup (keys (generate_heatmap commits).1.1) ∧
  NoDup (keys (generate_heatmap commits).1.2) ∧
  NoDup (keys (generate_heatmap commits).2).
Proof. apply generate_heatmap_NoDup. Qed.

(** ** [generate_heatmap] as a fold over finite maps *)

Lemma heatmap_step_maps (acc : aggregate) (c : commit) :
  maps_of (heatmap_step acc c) = maps_step (maps_of acc) c.
Proof.
  destruct c as [[date hour] repo_name], acc as [[hm rh] rs].
  unfold maps_of, heatmap_of, repo_heatmap_of, repo_stats_of, maps_step, bump.
  cbn [heatmap_step fst snd]. unfold dict_incr at 1 3.
  rewrite !dict_to_map_update. f_equal. f_equal.
  apply map_eq. intros key. unfold bump_nested.
  rewrite lookup_fmap, !lookup_partial_alter.
  destruct (decide ((date, hour) = key)) as [<-|]; [|by rewrite lookup_fmap].
  rewrite lookup_fmap. cbn [fmap option_fmap option_map]. f_equal.
  unfold dict_incr, bump. rewrite dict_to_map_update.
  by destruct (dict_to_map rh !! (date, hour)).
Qed.

Lemma generate_heatmap_maps (commits : list commit) (acc : aggregate) :
  maps_of (fold_left heatmap_step commits acc)
  = fold_left maps_step commits (maps_of acc).
Proof.
  revert acc. induction commits as [|c commits IH]; intros acc; [done|].
  cbn [fold_left]. by rewrite IH, heatmap_step_maps.
Qed.

Lemma bump_comm {K} `{Countable K} (k1 k2 : K) (m : gmap K Z) :
  bump k1 (bump k2 m) = bump k2 (bump k1 m).
Proof.
  apply map_eq. intros k. unfold bump. rewrite !lookup_partial_alter.
  repeat case_decide; simplify_eq; done.
Qed.

Lemma bump_nested_comm (k1 k2 : cell) (r1 r2 : string)
    (m : gmap cell (gmap string Z)) :
  bump_nested k1 r1 (bump_nested k2 r2 m) = bump_nested k2 r2 (bump_nested k1 r1 m).
Proof.
  apply map_eq. intros k. unfold bump_nested. rewrite !lookup_partial_alter.
  repeat case_decide; simplify_eq; try done.
  cbn [from_option id]. f_equal. apply bump_comm.
Qed.

Lemma maps_step_comm (m : aggregate_maps) (c1 c2 : commit) :
  maps_step (maps_step m c1) c2 = maps_step (maps_step m c2) c1.
Proof.
  destruct c1 as [[d1 h1] r1], c2 as [[d2 h2] r2], m as [[hm rh] rs].
  cbn [maps_step fst snd].
  by rewrite (bump_comm (d2, h2)), (bump_comm r2), (bump_nested_comm (d2, h2)).
Qed.

Lemma fold_left_maps_step_perm (l1 l2 : list commit) :
  l1 ≡ₚ l2 → ∀ m, fold_left maps_step l1 m = fold_left maps_step l2 m.
Proof.
  induction 1 as [|c l1 l2 _ IH|c1 c2 l|l1 l2 l3 _ IH1 _ IH2]; intros m.
  - done.
  - cbn [fold_left]. apply IH.
  - cbn [fold_left]. by rewrite maps_step_comm.
  - by rewrite IH1.
Qed.

Lemma merge_counts_empty_r {K} `{Countable K} (m : gmap K Z) :
  merge_counts m ∅ = m.
Proof.
  apply map_eq. intros k. unfold merge_counts.
  rewrite lookup_union_with, lookup_empty. by destruct (m !! k).
Qed.

Lemma merge_counts_bump_r {K} `{Countable K} (k : K) (m1 m2 : gmap K Z) :
  merge_counts m1 (bump k m2) = bump k (merge_counts m1 m2).
Proof.
  apply map_eq. intros k'. unfold merge_counts, bump.
  rewrite lookup_union_with, !lookup_partial_alter.
  case_decide; [subst k'|by rewrite lookup_union_with].
  rewrite lookup_union_with.
  destruct (m1 !! k), (m2 !! k); cbn; f_equal; lia.
Qed.

Lemma merge_nested_bump_r (key : cell) (r : string)
    (m1 m2 : gmap cell (gmap string Z)) :
  merge_nested m1 (bump_nested key r m2) = bump_nested key r (merge_nested m1 m2).
Proof.
  apply map_eq. intros k'. unfold merge_nested, bump_nested.
  rewrite lookup_union_with, !lookup_partial_alter.
  case_decide; [subst k'|by rewrite lookup_union_with].
  rewrite lookup_union_with.
  destruct (m1 !! key) as [a|], (m2 !! key) as [b|]; cbn; f_equal.
  - apply merge_counts_bump_r.
  - by rewrite merge_counts_bump_r, merge_counts_empty_r.
Qed.

Lemma merge_aggregates_step (a b : aggregate_maps) (c : commit) :
  merge_aggregates a (maps_step b c) = maps_step (merge_aggregates a b) c.
Proof.
  destruct c as [[date hour] repo_name], a as [[hm1 rh1] rs1], b as [[hm2 rh2] rs2].
  unfold merge_aggregates. cbn [maps_step fst snd].
  by rewrite !merge_counts_bump_r, merge_nested_bump_r.
Qed.

Lemma merge_aggregates_empty_r (a : aggregate_maps) :
  merge_aggregates a (∅, ∅, ∅) = a.
Proof.
  destruct a as [[hm rh] rs]. unfold merge_aggregates. cbn [fst snd].
  rewrite !merge_counts_empty_r. do 2 f_equal.
  apply map_eq. intros k. unfold merge_nested.
  rewrite lookup_union_with, lookup_empty. by destruct (rh !! k).
Qed.

Lemma fold_left_maps_step_merge (commits : list commit) (a b : aggregate_maps) :
  fold_left maps_step commits (merge_aggregates a b)
  = merge_aggregates a (fold_left maps_step commits b).
Proof.
  revert b. induction commits as [|c commits IH]; intros b; [done|].
  cbn [fold_left]. by rewrite <- merge_aggregates_step, IH.
Qed.

(** C4. Order independence: two lists of commit records that are
    permutations of each other give aggregates whose three dicts are equal
    as key-value mappings. *)
Theorem generate_heatmap_permutation (commits1 commits2 : list commit) :
  commits1 ≡ₚ commits2 →
  maps_of (generate_heatmap commits1) = maps_of (generate_heatmap commits2).
Proof.
  intros Hperm. unfold generate_heatmap.
  rewrite !generate_heatmap_maps. by apply fold_left_maps_step_perm.
Qed.

(** C5. Merge: however the records of a list are divided between two
    sub-lists, aggregating the whole list gives the same three maps as
    aggregating the two sub-lists and adding the results key by key. *)
Theorem generate_heatmap_merge (commits part1 part2 : list commit) :
  commits ≡ₚ part1 ++ part2 →
  maps_of (generate_heatmap commits)
  = merge_aggregates (maps_of (generate_heatmap part1))
                     (maps_of (generate_heatmap part2)).
Proof.
  intros Hperm. unfold generate_heatmap.
  rewrite !generate_heatmap_maps.
  rewrite (fold_left_maps_step_perm _ _ Hperm), fold_left_app.
  change (maps_of ([], [], [])) with ((∅, ∅, ∅) : aggregate_maps).
  set (a := fold_left maps_step part1 (∅, ∅, ∅)).
  rewrite <- (merge_aggregates_empty_r a) at 1.
  apply fold_left_maps_step_merge.
Qed.

Lemma generate_heatmap_permutation_witness :
  maps_of (generate_heatmap
             [(mk_datetime 2024 1 1, 9, "repoA"); (mk_datetime 2024 1 2, 14, "repoB")])
  = maps_of (generate_heatmap
               [(mk_datetime 2024 1 2, 14, "repoB"); (mk_datetime 2024 1 1, 9, "repoA")]).
Proof. apply generate_heatmap_permutation. apply perm_swap. Defined.

Lemma generate_heatmap_merge_witness :
  maps_of (generate_heatmap
             [(mk_datetime 2024 1 1, 9, "repoA"); (mk_datetime 2024 1 1, 9, "repoB");
              (mk_datetime 2024 1 2, 9, "repoA")])
  = merge_aggregates
      (maps_of (generate_heatmap
                  [(mk_datetime 2024 1 1, 9, "repoA"); (mk_datetime 2024 1 2, 9, "repoA")]))
      (maps_of (generate_heatmap [(mk_datetime 2024 1 1, 9, "repoB")])).
Proof.
  apply generate_heatmap_merge. simpl. apply perm_skip, perm_swap.
Defined.

(** ** The scale *)

Lemma int_le_float_spec (n : Z) (x : Q) :
  int_le_float n x = bool_decide (inject_Z n <= x)%Q.
Proof.
  unfold int_le_float. destruct (Qle_bool (inject_Z n) x) eqn:E.
  - symmetry. apply bool_decide_eq_true. by apply Qle_bool_iff.
  - symmetry. apply bool_decide_eq_false. intros Hle.
    apply Qle_bool_iff in Hle. congruence.
Qed.

Lemma le_quarter (count max_count : Z) :
  (inject_Z count <= 0.25 * inject_Z max_count)%Q ↔ 4 * count ≤ max_count.
Proof. unfold Qle. simpl. lia. Qed.

Lemma le_half (count max_count : Z) :
  (inject_Z count <= 0.5 * inject_Z max_count)%Q ↔ 2 * count ≤ max_count.
Proof. unfold Qle. simpl. lia. Qed.

Lemma le_three_quarters (count max_count : Z) :
  (inject_Z count <= 0.75 * inject_Z max_count)%Q ↔ 4 * count ≤ 3 * max_count.
Proof. unfold Qle. simpl. lia. Qed.

(** The thresholds of the code, [max_count * q], are those of the
    specification, [q * max_count]. *)
Lemma int_le_float_comm (count max_count : Z) (q : Q) :
  int_le_float count (inject_Z max_count * q)
  = bool_decide (inject_Z count <= q * inject_Z max_count)%Q.
Proof.
  rewrite int_le_float_spec. apply bool_decide_ext.
  by rewrite (Qmult_comm (inject_Z max_count) q).
Qed.

Lemma html_level_level_of (count max_count : Z) :
  html_level max_count count = level_of count max_count.
Proof.
  unfold html_level, level_of. rewrite !int_le_float_comm.
  destruct (decide (count = 0)); [done|].
  repeat (case_bool_decide; [by rewrite decide_True | rewrite decide_False by done]).
  done.
Qed.

(** Binary64 rounding leaves a mantissa of at most 53 bits alone. *)
Lemma b64_round_small (m e : Z) :
  0 ≤ m < 2 ^ 53 → b64_round m e = mk_b64 m e.
Proof.
  intros [Hlo Hhi]. unfold b64_round. cbv zeta.
  rewrite decide_True; [done|].
  destruct (decide (m = 0)) as [->|Hne]; [done|].
  assert (Z.log2 m < 53) by (apply Z.log2_lt_pow2; lia). lia.
Qed.

(** Below 2^51 the three products of the code are exact in binary64: the
    comparisons of [get_color] and of the HTML branch, computed on floats,
    are the comparisons on rationals made here. *)
Lemma threshold_products_exact (count max_count : Z) :
  0 ≤ max_count < 2 ^ 51 →
  int_le_b64 count (b64_mul (b64_of_int max_count) b64_quarter)
    = int_le_float count (inject_Z max_count * 0.25)%Q ∧
  int_le_b64 count (b64_mul (b64_of_int max_count) b64_half)
    = int_le_float count (inject_Z max_count * 0.5)%Q ∧
  int_le_b64 count (b64_mul (b64_of_int max_count) b64_three_quarters)
    = int_le_float count (inject_Z max_count * 0.75)%Q.
Proof.
  intros Hmax. unfold b64_of_int, b64_mul.
  rewrite (b64_round_small max_count 0) by lia.
  cbn [mant expo b64_quarter b64_half b64_three_quarters].
  rewrite !b64_round_small by lia.
  unfold int_le_b64. cbn [mant expo]. rewrite !int_le_float_spec.
  repeat split; (rewrite decide_False by lia); apply bool_decide_ext;
    unfold Qle; simpl; lia.
Qed.

Lemma threshold_products_exact_witness :
  int_le_b64 3 (b64_mul (b64_of_int 10) b64_quarter)
    = int_le_float 3 (inject_Z 10 * 0.25)%Q ∧
  int_le_b64 3 (b64_mul (b64_of_int 10) b64_half)
    = int_le_float 3 (inject_Z 10 * 0.5)%Q ∧
  int_le_b64 3 (b64_mul (b64_of_int 10) b64_three_quarters)
    = int_le_float 3 (inject_Z 10 * 0.75)%Q.
Proof. apply (threshold_products_exact 3 10). split; [lia|reflexivity]. Defined.

(** The scale in integer terms. *)
Lemma level_of_quartiles (count max_count : Z) :
  level_of count max_count =
  if decide (count = 0) then 0
  else if decide (4 * count ≤ max_count) then 1
  else if decide (2 * count ≤ max_count) then 2
  else if decide (4 * count ≤ 3 * max_count) then 3
  else 4.
Proof.
  unfold level_of.
  pose proof (le_quarter count max_count).
  pose proof (le_half count max_count).
  pose proof (le_three_quarters count max_count).
  repeat case_decide; tauto.
Qed.

Lemma get_color_html_level (max_count count : Z) :
  ansi_colors !! Z.to_nat (html_level max_count count)
  = Some (get_color max_count count).
Proof.
  unfold get_color, html_level.
  destruct (decide (count = 0)); [done|].
  by repeat destruct (int_le_float _ _).
Qed.




(** ** Cell bodies of the colour table *)

Lemma str_digit (count : Z) :
  1 ≤ count ≤ 9 → String.length (str count) = 1%nat.
Proof.
  intros Hr.
  assert (count = 1 ∨ count = 2 ∨ count = 3 ∨ count = 4 ∨ count = 5 ∨
          count = 6 ∨ count = 7 ∨ count = 8 ∨ count = 9) as Hc by lia.
  by repeat destruct Hc as [->|Hc]; try subst count.
Qed.



(** ** The no-data path *)

(** C7. On an aggregate without keys each of the three renderers prints
    the no-data notice, one line, and returns normally: nothing else is
    printed and no file is touched. *)
Theorem no_data_short_circuit (percent_1f : Z → Z → string)
    (html_head html_tail : string) (heatmap : dict cell Z)
    (repo_stats : option (dict string Z))
    (repo_heatmap : option (dict cell (dict string Z)))
    (output_path : string) (w : world) :
  keys heatmap = [] →
  let w' := mk_world (stdout w +:+ no_data_notice +:+ nl) (files w) in
  print_heatmap_table percent_1f heatmap repo_stats w = (inr (), w') ∧
  print_heatmap_table_plain percent_1f heatmap repo_stats w = (inr (), w') ∧
  generate_html_heatmap percent_1f html_head html_tail heatmap output_path
    repo_stats repo_heatmap w = (inr (), w').
Proof.
  intros Hkeys. destruct heatmap as [|kv heatmap]; [|discriminate Hkeys].
  done.
Qed.

Lemma no_data_short_circuit_witness :
  let w := mk_world "" ∅ in
  let w' := mk_world (stdout w +:+ no_data_notice +:+ nl) (files w) in
  print_heatmap_table (λ _ _, "") [] None w = (inr (), w') ∧
  print_heatmap_table_plain (λ _ _, "") [] None w = (inr (), w') ∧
  generate_html_heatmap (λ _ _, "") "" "" [] "out.html" None None w = (inr (), w').
Proof.
  apply (no_data_short_circuit (λ _ _, "") "" "" [] None None "out.html"
           (mk_world "" ∅)).
  reflexivity.
Defined.

(** C10. On an aggregate without keys [generate_html_heatmap] leaves the
    file system as it found it: no file is created or rewritten, the one
    at [output_path] included. *)
Theorem no_data_no_file_write (percent_1f : Z → Z → string)
    (html_head html_tail : string) (heatmap : dict cell Z)
    (repo_stats : option (dict string Z))
    (repo_heatmap : option (dict cell (dict string Z)))
    (output_path : string) (w : world) :
  keys heatmap = [] →
  files (generate_html_heatmap percent_1f html_head html_tail heatmap output_path
           repo_stats repo_heatmap w).2 = files w.
Proof.
  intros Hkeys. destruct heatmap as [|kv heatmap]; [|discriminate Hkeys].
  done.
Qed.

Lemma no_data_no_file_write_witness :
  files (generate_html_heatmap (λ _ _, "") "" "" [] "out.html" None None
           (mk_world "" {["out.html" := "old"]})).2
  = {["out.html" := "old"]}.
Proof.
  exact (no_data_no_file_write (λ _ _, "") "" "" [] None None "out.html"
           (mk_world "" {["out.html" := "old"]}) eq_refl).
Defined.

(** ** The year-span header row *)

Lemma push_run_same (y n : Z) (rs : list (Z * Z)) :
  push_run y n (push_run y 1 rs) = push_run y (n + 1) rs.
Proof.
  destruct rs as [|[y' m] rs]; simpl.
  - by rewrite decide_True.
  - destruct (decide (y = y')) as [->|Hne]; simpl.
    + rewrite decide_True by done. f_equal. f_equal. lia.
    + by rewrite decide_True.
Qed.

Lemma push_run_other (y y' n : Z) (rs : list (Z * Z)) :
  y ≠ y' → push_run y n (push_run y' 1 rs) = (y, n) :: push_run y' 1 rs.
Proof.
  intros Hne. destruct rs as [|[y0 m] rs]; simpl.
  - by rewrite decide_False.
  - destruct (decide (y' = y0)); simpl; by rewrite decide_False.
Qed.

Lemma year_scan_pending (ds : list datetime) (k : nat) (cy start : Z)
    (done : list (Z * Z)) :
  let st := fold_left year_scan_step
              (imap (λ i x, (Z.of_nat (k + i), x)) ds)
              (mk_year_scan (Some cy) start done) in
  match current_year st with
  | Some c => year_colspans st ++ [(c, Z.of_nat (k + length ds) - year_start_idx st)]
  | None => year_colspans st
  end
  = done ++ push_run cy (Z.of_nat k - start) (year_runs (year <$> ds)).
Proof.
  revert k cy start done. induction ds as [|d ds IH]; intros k cy start done.
  - simpl. by rewrite Nat.add_0_r.
  - cbn [imap fold_left fmap list_fmap length year_runs].
    rewrite (imap_ext _ (λ i x, (Z.of_nat (S k + i), x)))
      by (intros i x _; simpl; do 2 f_equal; lia).
    replace (k + S (length ds))%nat with (S k + length ds)%nat by lia.
    destruct (decide (year d = cy)) as [Heq|Hne].
    + replace (year_scan_step (mk_year_scan (Some cy) start done) (Z.of_nat (k + 0), d))
        with (mk_year_scan (Some cy) start done)
        by (unfold year_scan_step; simpl; rewrite decide_False; [done|];
            intros Hn; apply Hn; by rewrite Heq).
      specialize (IH (S k) cy start done). cbv zeta in IH. rewrite IH.
      f_equal. rewrite Heq, push_run_same. f_equal. lia.
    + replace (year_scan_step (mk_year_scan (Some cy) start done) (Z.of_nat (k + 0), d))
        with (mk_year_scan (Some (year d)) (Z.of_nat (k + 0))
                (done ++ [(cy, Z.of_nat (k + 0) - start)]))
        by (unfold year_scan_step; simpl; rewrite decide_True; [done|congruence]).
      specialize (IH (S k) (year d) (Z.of_nat (k + 0))
                    (done ++ [(cy, Z.of_nat (k + 0) - start)])).
      cbv zeta in IH. rewrite IH. rewrite <- app_assoc. f_equal.
      rewrite push_run_other by congruence.
      replace (Z.of_nat (S k) - Z.of_nat (k + 0)) with 1 by lia.
      simpl. do 2 f_equal. lia.
Qed.

Lemma compute_year_colspans_runs (dates : list datetime) :
  compute_year_colspans dates = year_runs (year <$> dates).
Proof.
  unfold compute_year_colspans, enumerate. destruct dates as [|d ds]; [done|].
  pose proof (year_scan_pending ds 1 (year d) 0 []) as Hscan. cbv zeta in Hscan.
  transitivity ([] ++ push_run (year d) (Z.of_nat 1 - 0) (year_runs (year <$> ds)));
    [|done].
  rewrite <- Hscan. cbn [imap fold_left].
  replace (year_scan_step (mk_year_scan None 0 []) (Z.of_nat 0, d))
    with (mk_year_scan (Some (year d)) 0 [])
    by done.
  done.
Qed.

Lemma year_runs_spanned (ys : list Z) :
  spanned_years (year_runs ys) = ys ∧ Forall (λ c, 1 ≤ c.2) (year_runs ys).
Proof.
  induction ys as [|y ys [IHs IHp]]; [by split|].
  cbn [year_runs]. destruct (year_runs ys) as [|[y' m] rs]; simpl in *.
  - subst ys. split; [done|]. by repeat constructor.
  - apply Forall_cons in IHp as [Hm Hrs]. simpl in Hm.
    destruct (decide (y = y')) as [->|Hne].
    + split; [|by constructor; [simpl; lia|]].
      unfold spanned_years in *. simpl in *. rewrite <- IHs.
      replace (Z.to_nat (1 + m)) with (S (Z.to_nat m)) by lia. done.
    + split; [|by repeat constructor].
      unfold spanned_years in *. simpl in *. by rewrite <- IHs.
Qed.

Lemma year_runs_neighbours_differ (ys : list Z) :
  neighbours_differ (year_runs ys).
Proof.
  induction ys as [|y ys IH]; [done|].
  cbn [year_runs]. destruct (year_runs ys) as [|[y' m] rs]; [done|].
  simpl. destruct (decide (y = y')) as [->|Hne].
  - destruct rs; [done|]. simpl in *. done.
  - simpl. split; done.
Qed.

Lemma year_runs_total (ys : list Z) :
  py_sum (year_runs ys).*2 = Z.of_nat (length ys).
Proof.
  induction ys as [|y ys IH]; [done|].
  cbn [year_runs length]. destruct (year_runs ys) as [|[y' m] rs].
  - simpl in *. unfold py_sum in *. simpl in *. lia.
  - simpl. rewrite fmap_cons, py_sum_cons in IH. simpl in IH.
    destruct (decide (y = y')); rewrite !fmap_cons, !py_sum_cons; simpl; lia.
Qed.

(** *** The date columns are the dates of the aggregate *)

Lemma insert_by_perm {A} (le : A → A → bool) (x : A) (l : list A) :
  insert_by le x l ≡ₚ x :: l.
Proof.
  induction l as [|y l IH]; simpl; [done|].
  destruct (le x y); [done|]. rewrite IH. apply perm_swap.
Qed.

Lemma py_sorted_perm {A} (le : A → A → bool) (l : list A) :
  py_sorted le l ≡ₚ l.
Proof.
  unfold py_sorted. induction l as [|x l IH]; simpl; [done|].
  by rewrite insert_by_perm, IH.
Qed.

(** The date columns are the dates of the keys, each once. *)
Lemma sorted_dates_elem_of {V} (heatmap : dict cell V) (date : datetime) :
  date ∈ sorted_dates heatmap ↔ ∃ hour, (date, hour) ∈ keys heatmap.
Proof.
  unfold sorted_dates. rewrite py_sorted_perm, elem_of_remove_dups, list_elem_of_fmap.
  split.
  - intros [[d h] [-> Hin]]. by exists h.
  - intros [h Hin]. by exists (date, h).
Qed.

Lemma sorted_dates_NoDup {V} (heatmap : dict cell V) :
  NoDup (sorted_dates heatmap).
Proof. unfold sorted_dates. rewrite py_sorted_perm. apply NoDup_remove_dups. Qed.

Lemma sorted_dates_nonempty {V} (heatmap : dict cell V) :
  heatmap ≠ [] → sorted_dates heatmap ≠ [].
Proof.
  intros Hne Hnil. destruct heatmap as [|[[date hour] v] heatmap]; [done|].
  assert (date ∈ sorted_dates (((date, hour), v) :: heatmap)) as Hin.
  { apply sorted_dates_elem_of. exists hour. unfold keys. simpl. left. }
  rewrite Hnil in Hin. by apply not_elem_of_nil in Hin.
Qed.

(** *** The date columns are in ascending order *)

Lemma insert_by_Sorted {A} (le : A → A → bool) (x : A) (l : list A) :
  (∀ a b, le a b = false → le b a = true) →
  Sorted (λ a b, le a b = true) l →
  Sorted (λ a b, le a b = true) (insert_by le x l).
Proof.
  intros Htotal. induction l as [|y l IH]; intros Hs; simpl.
  - by repeat constructor.
  - destruct (le x y) eqn:Hxy.
    + constructor; [done|]. by constructor.
    + apply Sorted_inv in Hs as [Hs Hhd].
      constructor; [by apply IH|].
      destruct l as [|z l]; simpl.
      * constructor. by apply Htotal.
      * destruct (le x z); constructor; [by apply Htotal|].
        by inversion Hhd.
Qed.

Lemma py_sorted_Sorted {A} (le : A → A → bool) (l : list A) :
  (∀ a b, le a b = false → le b a = true) →
  Sorted (λ a b, le a b = true) (py_sorted le l).
Proof.
  intros Htotal. unfold py_sorted. induction l as [|x l IH]; simpl.
  - constructor.
  - by apply insert_by_Sorted.
Qed.

Lemma datetime_leb_total (a b : datetime) :
  datetime_leb a b = false → datetime_leb b a = true.
Proof.
  unfold datetime_leb. repeat case_decide; try congruence;
    rewrite ?bool_decide_eq_false, ?bool_decide_eq_true; lia.
Qed.

Lemma datetime_leb_trans (a b c : datetime) :
  datetime_leb a b = true → datetime_leb b c = true → datetime_leb a c = true.
Proof.
  unfold datetime_leb. repeat case_decide; try congruence;
    rewrite ?bool_decide_eq_true; lia.
Qed.

Lemma datetime_leb_year (a b : datetime) :
  datetime_leb a b = true → year a ≤ year b.
Proof.
  unfold datetime_leb. repeat case_decide; rewrite ?bool_decide_eq_true; lia.
Qed.

Lemma sorted_dates_sorted {V} (heatmap : dict cell V) :
  StronglySorted (λ a b, datetime_leb a b = true) (sorted_dates heatmap).
Proof.
  apply Sorted_StronglySorted.
  - intros a b c. apply datetime_leb_trans.
  - apply py_sorted_Sorted, datetime_leb_total.
Qed.

Lemma year_runs_years (ys : list Z) (c : Z * Z) :
  c ∈ year_runs ys → c.1 ∈ ys.
Proof.
  revert c. induction ys as [|y ys IH]; intros c; [by intros ?%not_elem_of_nil|].
  cbn [year_runs]. destruct (year_runs ys) as [|[y' m] rs]; simpl.
  - intros ->%list_elem_of_singleton. left.
  - destruct (decide (y = y')) as [->|Hne].
    + intros [->|Hin]%elem_of_cons; [left|].
      right. apply IH. by right.
    + intros [->|Hin]%elem_of_cons; [left|]. right. by apply IH.
Qed.

Lemma year_runs_increasing (ys : list Z) :
  StronglySorted Z.le ys → StronglySorted Z.lt (year_runs ys).*1.
Proof.
  induction 1 as [|y ys Hs IH Hle]; [constructor|].
  cbn [year_runs].
  pose proof (year_runs_years ys) as Hin.
  destruct (year_runs ys) as [|[y' m] rs]; simpl; [by repeat constructor|].
  destruct (decide (y = y')) as [->|Hne]; [done|].
  simpl in IH. apply StronglySorted_cons in IH as [Hlt IH].
  assert (y ≤ y') as Hyy'.
  { rewrite Forall_forall in Hle. apply Hle. apply (Hin (y', m)). left. }
  constructor; [by constructor|].
  constructor; [simpl; lia|]. simpl.
  rewrite Forall_forall in Hlt |- *. intros k Hk. specialize (Hlt k Hk). lia.
Qed.


(** ** The date header row *)

Lemma starts_new_year_prefix (dates : list datetime) (x : datetime) (i : nat) :
  (i < length dates)%nat →
  starts_new_year (dates ++ [x]) i = starts_new_year dates i.
Proof.
  intros Hi. destruct i as [|j]; [done|]. simpl.
  by rewrite !lookup_app_l by lia.
Qed.

Lemma starts_new_year_last (dates : list datetime) (x : datetime) :
  starts_new_year (dates ++ [x]) (length dates)
  = bool_decide (year <$> last dates ≠ None ∧ Some (year x) ≠ year <$> last dates).
Proof.
  destruct (length dates) as [|j] eqn:Hlen.
  - by apply nil_length_inv in Hlen as ->.
  - simpl. rewrite last_lookup, Hlen. simpl.
    rewrite (lookup_app_l dates [x] j) by lia.
    rewrite (list_lookup_middle dates [] x (S j)) by done.
    destruct (dates !! j) as [p|] eqn:Hp.
    + simpl. apply bool_decide_ext. split.
      * intros Hne. split; [done|]. congruence.
      * intros [_ Hne] Heq. apply Hne. by rewrite Heq.
    + apply lookup_ge_None in Hp. lia.
Qed.

Lemma date_row_fold (dates : list datetime) :
  fold_left date_row_step dates (None, [])
  = (year <$> last dates,
     imap (λ i d, date_header_cell (starts_new_year dates i) d) dates).
Proof.
  induction dates as [|x dates IH] using rev_ind; [done|].
  rewrite fold_left_app, IH. cbn [fold_left date_row_step].
  rewrite last_snoc, imap_app. cbn [imap fmap option_fmap option_map].
  f_equal. f_equal.
  - apply imap_ext. intros i d Hi. apply lookup_lt_Some in Hi.
    by rewrite starts_new_year_prefix.
  - by rewrite Nat.add_0_r, starts_new_year_last.
Qed.

Lemma date_header_cell_class (d : datetime) :
  date_header_cell true d ≠ date_header_cell false d.
Proof.
  unfold date_header_cell. cbn [spaces repeat_char append attr].
  intros Heq. discriminate Heq.
Qed.


(** ** The path with data *)

Lemma html_document_written (percent_1f : Z → Z → string)
    (html_head html_tail : string) (heatmap : dict cell Z)
    (repo_stats : option (dict string Z))
    (repo_heatmap : option (dict cell (dict string Z)))
    (output_path : string) (w : world) :
  heatmap ≠ [] →
  ∃ rest,
    generate_html_heatmap percent_1f html_head html_tail heatmap output_path
      repo_stats repo_heatmap w
    = (inr (),
       mk_world (stdout w +:+ (nl +:+ "HTML 文件已生成: " +:+ output_path) +:+ nl)
         (<[output_path :=
              String.concat ""
                ([html_head; year_corner_cell]
                 ++ html_year_row (sorted_dates heatmap)
                 ++ [spaces 24 +:+ "</tr>" +:+ nl +:+ spaces 24 +:+ "<tr>" +:+ nl
                     +:+ spaces 28 +:+ "<th></th>" +:+ nl]
                 ++ html_date_row (sorted_dates heatmap)
                 ++ rest)]> (files w))).
Proof.
  intros Hne. pose proof (sorted_dates_nonempty heatmap Hne) as Hdates.
  unfold generate_html_heatmap.
  destruct heatmap as [|kv heatmap]; [done|].
  cbn [dict_is_empty negb].
  destruct (sorted_dates (kv :: heatmap)) as [|d ds] eqn:Hsd; [done|].
  destruct (last (d :: ds)) as [dl|] eqn:Hlast; [|by apply last_None in Hlast].
  unfold py_last. rewrite Hlast. unfold items, values.
  lazy beta iota zeta delta [mbind mret M_bind M_ret py_max py_first
    py_max_by_value fmap list_fmap].
  destruct (fold_left _ heatmap kv) as [[date hour] c].
  lazy beta iota zeta delta [fst snd write_text print print_end stdout files].
  eexists. rewrite <- !app_assoc. reflexivity.
Qed.



(** *** The terminal renderers only print *)

Lemma string_app_nil_r (s : string) : s +:+ "" = s.
Proof.
  induction s as [|c s IH]; [reflexivity|].
  change (String c (s +:+ "") = String c s). by rewrite IH.
Qed.

Lemma string_app_assoc (s1 s2 s3 : string) :
  (s1 +:+ s2) +:+ s3 = s1 +:+ s2 +:+ s3.
Proof.
  induction s1 as [|c s1 IH]; [reflexivity|].
  change (String c ((s1 +:+ s2) +:+ s3) = String c (s1 +:+ s2 +:+ s3)).
  by rewrite IH.
Qed.

Lemma prints_only_ret : prints_only (mret ()).
Proof. intros w. exists "". rewrite string_app_nil_r. by destruct w. Qed.

Lemma prints_only_print_end (s e : string) : prints_only (print_end s e).
Proof. intros w. by exists (s +:+ e). Qed.

Lemma prints_only_print (s : string) : prints_only (print s).
Proof. apply prints_only_print_end. Qed.

Lemma prints_only_seq (m1 m2 : M unit) :
  prints_only m1 → prints_only m2 → prints_only (m1 ;; m2).
Proof.
  intros H1 H2 w. destruct (H1 w) as [out1 E1].
  destruct (H2 (mk_world (stdout w +:+ out1) (files w))) as [out2 E2].
  exists (out1 +:+ out2). unfold mbind, M_bind. rewrite E1, E2.
  cbn [stdout files]. by rewrite string_app_assoc.
Qed.

Lemma prints_only_bind_ret {A} (a : A) (k : A → M unit) :
  prints_only (k a) → prints_only (mret a ≫= k).
Proof. intros Hk w. apply Hk. Qed.

Lemma prints_only_for_each {A} (l : list A) (body : A → M unit) :
  (∀ x, prints_only (body x)) → prints_only (for_each l body).
Proof.
  intros Hbody. induction l as [|x l IH]; simpl.
  - apply prints_only_ret.
  - by apply prints_only_seq.
Qed.

Lemma print_summary_prints_only (percent_1f : Z → Z → string)
    (heatmap : dict cell Z) (repo_stats : option (dict string Z))
    (dates : list datetime) :
  dates ≠ [] → prints_only (print_summary percent_1f heatmap repo_stats dates).
Proof.
  intros Hdates. unfold print_summary.
  apply prints_only_seq; [apply prints_only_print|].
  apply prints_only_seq.
  { destruct (several_repos repo_stats); [|apply prints_only_ret].
    apply prints_only_seq; [apply prints_only_print|].
    apply prints_only_for_each. intros [repo_name count]. apply prints_only_print. }
  destruct dates as [|d ds]; [done|].
  unfold py_first, py_last.
  destruct (last (d :: ds)) as [dl|] eqn:Hlast; [|by apply last_None in Hlast].
  do 2 apply prints_only_bind_ret.
  apply prints_only_seq; [apply prints_only_print|].
  apply prints_only_seq; [apply prints_only_print|].
  destruct heatmap as [|kv heatmap]; [apply prints_only_ret|].
  cbn [dict_is_empty negb py_max_by_value items].
  apply prints_only_bind_ret.
  destruct (fold_left _ heatmap kv) as [[date hour] c].
  apply prints_only_print.
Qed.

Lemma terminal_renderers_print_only (percent_1f : Z → Z → string)
    (heatmap : dict cell Z) (repo_stats : option (dict string Z)) :
  prints_only (print_heatmap_table percent_1f heatmap repo_stats) ∧
  prints_only (print_heatmap_table_plain percent_1f heatmap repo_stats).
Proof.
  unfold print_heatmap_table, print_heatmap_table_plain.
  destruct heatmap as [|kv heatmap]; [split; apply prints_only_print|].
  pose proof (sorted_dates_nonempty (kv :: heatmap)) as Hdates.
  cbn [dict_is_empty negb]. unfold values. rewrite fmap_cons. cbn [py_max].
  split; [apply prints_only_bind_ret|].
  all: apply prints_only_seq; [apply prints_only_print_end|].
  all: apply prints_only_seq;
    [apply prints_only_for_each; intros date; apply prints_only_print_end|].
  all: apply prints_only_seq; [apply prints_only_print|].
  all: apply prints_only_seq; [|by apply print_summary_prints_only; auto].
  all: apply prints_only_for_each; intros hour.
  all: apply prints_only_seq; [apply prints_only_print_end|].
  all: apply prints_only_seq; [|apply prints_only_print].
  all: apply prints_only_for_each; intros date; apply prints_only_print_end.
Qed.


(** ** What [generate_heatmap] counts *)

Lemma count_of_nonneg {A} (P : A → Prop) `{∀ x, Decision (P x)} (l : list A) :
  0 ≤ count_of P l.
Proof. unfold count_of. lia. Qed.

Lemma count_of_cons {A} (P : A → Prop) `{∀ x, Decision (P x)} (x : A) (l : list A) :
  count_of P (x :: l) = (if decide (P x) then 1 else 0) + count_of P l.
Proof.
  unfold count_of. rewrite filter_cons. destruct (decide (P x)); simpl; lia.
Qed.

Lemma add_count_add (o : option Z) (n m : Z) :
  0 ≤ n → 0 ≤ m → add_count (add_count o n) m = add_count o (n + m).
Proof.
  intros Hn Hm. unfold add_count.
  repeat case_decide; try lia; try done; simpl; f_equal; lia.
Qed.

Lemma dict_get_incr {K} `{EqDecision K} (k k' : K) (d : dict K Z) :
  dict_get (dict_incr k d) k'
  = add_count (dict_get d k') (if decide (k = k') then 1 else 0).
Proof.
  unfold dict_incr. rewrite dict_get_update. unfold add_count.
  destruct (decide (k = k')) as [->|]; [|done].
  by rewrite decide_False by lia.
Qed.

Lemma heatmap_step_counts (acc : aggregate) (c : commit) :
  (∀ key, dict_get (heatmap_step acc c).1.1 key
          = add_count (dict_get acc.1.1 key) (if decide (c.1 = key) then 1 else 0)) ∧
  (∀ repo, dict_get (heatmap_step acc c).2 repo
           = add_count (dict_get acc.2 repo) (if decide (c.2 = repo) then 1 else 0)) ∧
  (∀ key repo,
     dict_get (heatmap_step acc c).1.2 key ≫= (λ by_repo, dict_get by_repo repo)
     = add_count (dict_get acc.1.2 key ≫= (λ by_repo, dict_get by_repo repo))
         (if decide (c = (key, repo)) then 1 else 0)).
Proof.
  destruct c as [[date hour] repo_name], acc as [[hm rh] rs].
  cbn [heatmap_step fst snd]. split; [|split].
  - intros key. apply dict_get_incr.
  - intros repo. apply dict_get_incr.
  - intros key repo. rewrite dict_get_update.
    destruct (decide ((date, hour) = key)) as [<-|Hk].
    + cbn [mbind option_bind]. rewrite dict_get_incr.
      destruct (decide (repo_name = repo)) as [<-|Hr].
      * rewrite decide_True by done. by destruct (dict_get rh (date, hour)).
      * rewrite decide_False by congruence. by destruct (dict_get rh (date, hour)).
    + rewrite decide_False by congruence. done.
Qed.

Lemma heatmap_fold_counts (commits : list commit) (acc : aggregate) :
  let res := fold_left heatmap_step commits acc in
  (∀ key, dict_get res.1.1 key
          = add_count (dict_get acc.1.1 key) (count_of (λ c, c.1 = key) commits)) ∧
  (∀ repo, dict_get res.2 repo
           = add_count (dict_get acc.2 repo) (count_of (λ c, c.2 = repo) commits)) ∧
  (∀ key repo,
     dict_get res.1.2 key ≫= (λ by_repo, dict_get by_repo repo)
     = add_count (dict_get acc.1.2 key ≫= (λ by_repo, dict_get by_repo repo))
         (count_of (λ c, c = (key, repo)) commits)).
Proof.
  revert acc. induction commits as [|c commits IH]; intros acc; cbn zeta.
  - by repeat split.
  - cbn [fold_left]. destruct (IH (heatmap_step acc c)) as (H1 & H2 & H3).
    destruct (heatmap_step_counts acc c) as (S1 & S2 & S3).
    split; [|split].
    + intros key. rewrite H1, S1, count_of_cons.
      apply add_count_add; [case_decide; lia | apply count_of_nonneg].
    + intros repo. rewrite H2, S2, count_of_cons.
      apply add_count_add; [case_decide; lia | apply count_of_nonneg].
    + intros key repo. rewrite H3, S3, count_of_cons.
      apply add_count_add; [case_decide; lia | apply count_of_nonneg].
Qed.

(** The aggregate counts occurrences.  A cell is a key of [heatmap] exactly
    when some record falls in it, and its value is the number of those
    records; likewise for the sources in [repo_stats], and for the pairs
    of a cell and a source in [repo_heatmap]. *)
Theorem generate_heatmap_counts (commits : list commit) :
  let heatmap := (generate_heatmap commits).1.1 in
  let repo_heatmap := (generate_heatmap commits).1.2 in
  let repo_stats := (generate_heatmap commits).2 in
  (∀ key, dict_get heatmap key
          = let n := count_of (λ c, c.1 = key) commits in
            if decide (n = 0) then None else Some n) ∧
  (∀ repo, dict_get repo_stats repo
           = let n := count_of (λ c, c.2 = repo) commits in
             if decide (n = 0) then None else Some n) ∧
  (∀ key repo,
     dict_get repo_heatmap key ≫= (λ by_repo, dict_get by_repo repo)
     = let n := count_of (λ c, c = (key, repo)) commits in
       if decide (n = 0) then None else Some n).
Proof.
  destruct (heatmap_fold_counts commits ([], [], [])) as (H1 & H2 & H3).
  split; [|split]; intros; [rewrite H1|rewrite H2|rewrite H3];
    unfold add_count; cbn zeta; by case_decide.
Qed.

(** *** Counts are positive *)

Lemma values_update_Forall {K V} `{EqDecision K} (P : V → Prop)
    (f : option V → V) (k : K) (d : dict K V) :
  P (f None) → (∀ v, P v → P (f (Some v))) →
  Forall P (values d) → Forall P (values (dict_update f k d)).
Proof.
  intros Hnone Hsome. unfold values.
  induction d as [|[k0 v] d IH]; intros Hd.
  - by repeat constructor.
  - cbn [dict_update]. rewrite fmap_cons in Hd. apply Forall_cons in Hd as [Hv Hd].
    destruct (decide (k0 = k)); rewrite fmap_cons; constructor; simpl; auto.
Qed.

Lemma values_incr_positive {K} `{EqDecision K} (k : K) (d : dict K Z) :
  Forall (λ v, 1 ≤ v) (values d) → Forall (λ v, 1 ≤ v) (values (dict_incr k d)).
Proof.
  unfold dict_incr. apply values_update_Forall.
  - cbn [from_option id]. lia.
  - intros v Hv. cbn [from_option id]. lia.
Qed.

Lemma dict_incr_nonempty {K} `{EqDecision K} (k : K) (d : dict K Z) :
  dict_incr k d ≠ [].
Proof.
  unfold dict_incr. destruct d as [|[k0 v] d]; cbn [dict_update]; [done|].
  by destruct (decide (k0 = k)).
Qed.

Lemma heatmap_fold_positive (commits : list commit) (acc : aggregate) :
  let well_formed := λ a : aggregate,
    Forall (λ v, 1 ≤ v) (values a.1.1) ∧
    Forall (λ v, 1 ≤ v) (values a.2) ∧
    Forall (λ by_repo : dict string Z,
              by_repo ≠ [] ∧ Forall (λ v, 1 ≤ v) (values by_repo))
           (values a.1.2) in
  well_formed acc → well_formed (fold_left heatmap_step commits acc).
Proof.
  cbn zeta. revert acc. induction commits as [|c commits IH]; intros acc Hacc; [done|].
  cbn [fold_left]. apply IH.
  destruct c as [[date hour] repo_name], acc as [[hm rh] rs].
  cbn [heatmap_step fst snd] in *. destruct Hacc as (H1 & H2 & H3).
  split; [by apply values_incr_positive|]. split; [by apply values_incr_positive|].
  apply values_update_Forall; [| |done].
  - split; [apply dict_incr_nonempty|]. apply values_incr_positive. constructor.
  - intros by_repo [_ Hpos]. split; [apply dict_incr_nonempty|].
    by apply values_incr_positive.
Qed.

Lemma generate_heatmap_positive_aux (commits : list commit) :
  Forall (λ v, 1 ≤ v) (values (generate_heatmap commits).1.1) ∧
  Forall (λ v, 1 ≤ v) (values (generate_heatmap commits).2) ∧
  Forall (λ by_repo : dict string Z,
            by_repo ≠ [] ∧ Forall (λ v, 1 ≤ v) (values by_repo))
         (values (generate_heatmap commits).1.2).
Proof.
  apply (heatmap_fold_positive commits ([], [], [])).
  repeat split; constructor.
Qed.

(** Every count the aggregate stores is at least 1: a cell or source
    without commits is absent, never present with 0; and the per-source
    breakdown of a cell that is present is never empty. *)
Theorem generate_heatmap_positive (commits : list commit) :
  Forall (λ v, 1 ≤ v) (values (generate_heatmap commits).1.1) ∧
  Forall (λ v, 1 ≤ v) (values (generate_heatmap commits).2) ∧
  Forall (λ by_repo : dict string Z,
            by_repo ≠ [] ∧ Forall (λ v, 1 ≤ v) (values by_repo))
         (values (generate_heatmap commits).1.2).
Proof. apply generate_heatmap_positive_aux. Qed.

(** ** The scale on real aggregates *)



Lemma html_level_zero (max_count count : Z) :
  html_level max_count count = 0 ↔ count = 0.
Proof.
  rewrite html_level_level_of, level_of_quartiles. repeat case_decide; lia.
Qed.

Lemma py_max_fold (xs : list Z) (x : Z) :
  let m := fold_left (λ best y, if decide (best < y) then y else best) xs x in
  m ∈ x :: xs ∧ Forall (λ v, v ≤ m) (x :: xs).
Proof.
  cbn zeta. revert x. induction xs as [|y xs IH]; intros x.
  - simpl. split; [left|]. constructor; [lia|constructor].
  - cbn [fold_left]. destruct (IH (if decide (x < y) then y else x)) as [Hin Hle].
    set (m := fold_left _ xs _) in *.
    apply Forall_cons in Hle as [Hhd Hle]. split.
    + apply elem_of_cons in Hin as [Hin|Hin]; [|by do 2 right].
      rewrite Hin. case_decide; [right; left|left].
    + repeat constructor; [case_decide; lia|case_decide; lia|done].
Qed.

Lemma dict_get_elem_of_values {K V} `{EqDecision K} (d : dict K V) (k : K) (v : V) :
  dict_get d k = Some v → v ∈ values d.
Proof.
  unfold values. induction d as [|[k0 v0] d IH]; [done|]. cbn [dict_get].
  rewrite fmap_cons. destruct (decide (k0 = k)).
  - intros [= ->]. left.
  - intros Hget. right. by apply IH.
Qed.

Lemma values_elem_of_dict_get {K V} `{EqDecision K} (d : dict K V) (v : V) :
  NoDup (keys d) → v ∈ values d → ∃ k, dict_get d k = Some v.
Proof.
  unfold keys, values. induction d as [|[k0 v0] d IH]; intros Hnd Hin.
  - by apply not_elem_of_nil in Hin.
  - rewrite fmap_cons in Hnd. rewrite fmap_cons in Hin.
    apply NoDup_cons in Hnd as [Hk0 Hnd].
    apply elem_of_cons in Hin as [->|Hin].
    + exists k0. cbn [dict_get]. by rewrite decide_True.
    + destruct (IH Hnd Hin) as [k Hk]. exists k. cbn [dict_get].
      rewrite decide_False; [done|]. intros ->. apply Hk0.
      clear -Hk. induction d as [|[k1 v1] d IH]; [done|].
      cbn [dict_get] in Hk. rewrite fmap_cons.
      destruct (decide (k1 = k)) as [->|]; [left|right; by apply IH].
Qed.

Lemma generate_heatmap_nonempty (commits : list commit) :
  commits ≠ [] → (generate_heatmap commits).1.1 ≠ [].
Proof.
  intros Hne Hnil. destruct commits as [|c commits]; [done|].
  destruct (heatmap_fold_counts (c :: commits) ([], [], [])) as (H1 & _ & _).
  specialize (H1 c.1). fold (generate_heatmap (c :: commits)) in H1.
  rewrite Hnil, count_of_cons, decide_True in H1 by done.
  pose proof (count_of_nonneg (λ c0 : commit, c0.1 = c.1) commits).
  unfold add_count in H1. rewrite decide_False in H1 by lia. done.
Qed.

(** [max_count] on the aggregate of a non-empty list of commits: [max]
    returns, its result is at least 1, no cell holds more and some cell
    holds exactly that; that cell is drawn at level 4, and a cell is drawn
    at level 0 exactly when no commit falls in it. *)
Theorem max_count_of_aggregate (commits : list commit) :
  commits ≠ [] →
  let heatmap := (generate_heatmap commits).1.1 in
  ∃ max_count,
    (∀ w, py_max (values heatmap) w = (inr max_count, w)) ∧
    1 ≤ max_count ∧
    (∀ key, 0 ≤ dict_get_default heatmap key 0 ≤ max_count) ∧
    (∃ key, dict_get_default heatmap key 0 = max_count) ∧
    html_level max_count max_count = 4 ∧
    (∀ key, html_level max_count (dict_get_default heatmap key 0) = 0
            ↔ count_of (λ c, c.1 = key) commits = 0).
Proof.
  intros Hne heatmap.
  pose proof (generate_heatmap_nonempty commits Hne) as Hhm.
  destruct (generate_heatmap_positive_aux commits) as (Hpos & _ & _).
  destruct (generate_heatmap_NoDup commits) as (Hnd & _ & _).
  destruct (heatmap_fold_counts commits ([], [], [])) as (Hcnt & _ & _).
  fold (generate_heatmap commits) in Hcnt. fold heatmap in Hhm, Hpos, Hnd, Hcnt.
  destruct (values heatmap) as [|x xs] eqn:Hvals.
  { destruct heatmap; [done|discriminate Hvals]. }
  destruct (py_max_fold xs x) as [Hin Hle].
  set (m := fold_left _ xs x) in *. exists m.
  assert (1 ≤ m) as Hm by (rewrite Forall_forall in Hpos; by apply Hpos).
  split; [done|]. split; [done|]. split; [|split; [|split]].
  - intros key. unfold dict_get_default.
    destruct (dict_get heatmap key) as [v|] eqn:Hget; simpl; [|lia].
    apply dict_get_elem_of_values in Hget. rewrite Hvals in Hget.
    rewrite Forall_forall in Hpos, Hle. specialize (Hpos v Hget).
    specialize (Hle v Hget). lia.
  - rewrite <- Hvals in Hin.
    destruct (values_elem_of_dict_get heatmap m Hnd Hin) as [key Hkey].
    exists key. unfold dict_get_default. by rewrite Hkey.
  - rewrite html_level_level_of, level_of_quartiles. repeat case_decide; lia.
  - intros key. rewrite html_level_zero. unfold dict_get_default.
    rewrite Hcnt. unfold add_count.
    pose proof (count_of_nonneg (λ c : commit, c.1 = key) commits).
    case_decide; simpl; [done|]. lia.
Qed.

Lemma max_count_of_aggregate_witness :
  ∃ max_count,
    (∀ w, py_max (values (generate_heatmap [(mk_datetime 2024 1 1, 9, "repoA")]).1.1) w
          = (inr max_count, w)) ∧
    1 ≤ max_count ∧
    (∀ key, 0 ≤ dict_get_default
                  (generate_heatmap [(mk_datetime 2024 1 1, 9, "repoA")]).1.1 key 0
            ≤ max_count) ∧
    (∃ key, dict_get_default
              (generate_heatmap [(mk_datetime 2024 1 1, 9, "repoA")]).1.1 key 0
            = max_count) ∧
    html_level max_count max_count = 4 ∧
    (∀ key, html_level max_count
              (dict_get_default
                 (generate_heatmap [(mk_datetime 2024 1 1, 9, "repoA")]).1.1 key 0) = 0
            ↔ count_of (λ c, c.1 = key) [(mk_datetime 2024 1 1, 9, "repoA")] = 0).
Proof.
  apply (max_count_of_aggregate [(mk_datetime 2024 1 1, 9, "repoA")]). discriminate.
Defined.

(** ** The summary lines *)

Lemma first_max_fold {K} (its : list (K * Z)) (x : K * Z) :
  let best := fold_left (λ best y, if decide (best.2 < y.2) then y else best) its x in
  ∃ pre post, x :: its = pre ++ best :: post ∧
              Forall (λ y, y.2 < best.2) pre ∧ Forall (λ y, y.2 ≤ best.2) post.
Proof.
  cbn zeta. induction its as [|y its IH] using rev_ind.
  - exists [], []. by repeat split.
  - rewrite fold_left_app. cbn [fold_left].
    destruct IH as (pre & post & Heq & Hpre & Hpost).
    set (b := fold_left _ its x) in *.
    destruct (decide (b.2 < y.2)) as [Hlt|Hge].
    + exists (pre ++ b :: post), []. split; [|split].
      * by rewrite app_comm_cons, Heq.
      * apply Forall_app. split.
        -- eapply Forall_impl; [exact Hpre|]. intros z Hz. simpl in Hz. lia.
        -- constructor; [done|].
           eapply Forall_impl; [exact Hpost|]. intros z Hz. simpl in Hz. lia.
      * constructor.
    + exists pre, (post ++ [y]). split; [|split].
      * rewrite app_comm_cons, Heq. by rewrite <- app_assoc.
      * done.
      * apply Forall_app. split; [done|]. constructor; [lia|constructor].
Qed.

(** The busiest cell of the summary is the first item of the dict, in
    insertion order, whose count is the largest: the items before it have
    smaller counts, the items after it have counts that are no larger. *)
Theorem busiest_cell_first_maximum {K} (its : list (K * Z)) :
  its ≠ [] →
  ∃ best pre post,
    (∀ w, py_max_by_value its w = (inr best, w)) ∧
    its = pre ++ best :: post ∧
    Forall (λ y, y.2 < best.2) pre ∧
    Forall (λ y, y.2 ≤ best.2) post.
Proof.
  intros Hne. destruct its as [|x its]; [done|].
  destruct (first_max_fold its x) as (pre & post & Heq & Hpre & Hpost).
  eexists _, pre, post. split; [|split; [exact Heq|by split]].
  intros w. reflexivity.
Qed.

Lemma busiest_cell_first_maximum_witness :
  ∃ best pre post,
    (∀ w, py_max_by_value [("a", 2); ("b", 5); ("c", 5)] w = (inr best, w)) ∧
    [("a", 2); ("b", 5); ("c", 5)] = pre ++ best :: post ∧
    Forall (λ y : string * Z, y.2 < best.2) pre ∧
    Forall (λ y : string * Z, y.2 ≤ best.2) post.
Proof.
  apply (busiest_cell_first_maximum [("a", 2); ("b", 5); ("c", 5)]). discriminate.
Defined.

Lemma Sorted_weaken {A} (R1 R2 : A → A → Prop) (l : list A) :
  (∀ a b, R1 a b → R2 a b) → Sorted R1 l → Sorted R2 l.
Proof.
  intros Himpl. induction 1 as [|x l Hs IH Hhd]; constructor; [done|].
  destruct Hhd; constructor. by apply Himpl.
Qed.

Lemma insert_by_filter {A} (le : A → A → bool) (P : A → Prop)
    `{∀ x, Decision (P x)} (x : A) (l : list A) :
  (∀ y, P x → P y → le x y = true) →
  filter P (insert_by le x l) = filter P (x :: l).
Proof.
  intros Hle. induction l as [|y l IH]; [done|]. cbn [insert_by].
  destruct (le x y) eqn:Hxy; [done|].
  rewrite filter_cons, IH, !filter_cons.
  destruct (decide (P y)) as [Hy|]; [|done].
  destruct (decide (P x)) as [Hx|]; [|done].
  rewrite (Hle y Hx Hy) in Hxy. discriminate.
Qed.

(** The per-source lines of the summary: every source once, larger counts
    first, and sources with equal counts in the order the dict holds
    them. *)
Theorem by_count_desc_stable (its : list (string * Z)) :
  by_count_desc its ≡ₚ its ∧
  Sorted (λ a b, b.2 ≤ a.2) (by_count_desc its) ∧
  ∀ count, filter (λ it, it.2 = count) (by_count_desc its)
           = filter (λ it, it.2 = count) its.
Proof.
  unfold by_count_desc. split; [apply py_sorted_perm|]. split.
  - eapply Sorted_weaken; [|apply py_sorted_Sorted].
    + intros a b Hab. by apply bool_decide_eq_true in Hab.
    + intros a b Hab. apply bool_decide_eq_false in Hab.
      apply bool_decide_eq_true. lia.
  - intros count. unfold py_sorted. induction its as [|x its IH]; [done|].
    cbn [foldr]. rewrite insert_by_filter, !filter_cons, IH; [done|].
    intros y Hx Hy. apply bool_decide_eq_true. simpl in *. lia.
Qed.

Lemma by_name_le_total (a b : string * Z) :
  (String.ltb a.1 b.1 || (String.eqb a.1 b.1 && bool_decide (a.2 ≤ b.2))) = false →
  (String.ltb b.1 a.1 || (String.eqb b.1 a.1 && bool_decide (b.2 ≤ a.2))) = true.
Proof.
  unfold String.ltb. rewrite (String.compare_antisym b.1 a.1).
  destruct (String.compare a.1 b.1) eqn:Hcmp; simpl; [|done|done].
  apply String.compare_eq_iff in Hcmp. rewrite Hcmp, String.eqb_refl. simpl.
  intros Hle. apply bool_decide_eq_false in Hle. apply bool_decide_eq_true. lia.
Qed.

(** The per-source lines of a tooltip: every source of the cell once, in
    ascending order of the names. *)
Theorem by_name_sorted (its : list (string * Z)) :
  by_name its ≡ₚ its ∧
  Sorted (λ a b, String.leb a.1 b.1 = true) (by_name its).
Proof.
  unfold by_name. split; [apply py_sorted_perm|].
  eapply Sorted_weaken; [|apply py_sorted_Sorted, by_name_le_total].
  intros a b. unfold String.ltb, String.leb.
  destruct (String.compare a.1 b.1) eqn:Hcmp; simpl; try done.
  destruct (String.eqb_spec a.1 b.1) as [Heq|]; [|done].
  rewrite Heq in Hcmp.
  pose proof (String.compare_antisym b.1 b.1) as Hanti.
  rewrite Hcmp in Hanti. discriminate.
Qed.

(** ** The date columns and the table *)

Lemma datetime_leb_antisym (a b : datetime) :
  datetime_leb a b = true → datetime_leb b a = true → a = b.
Proof.
  destruct a as [y1 m1 d1], b as [y2 m2 d2]. unfold datetime_leb. simpl.
  repeat case_decide; rewrite ?bool_decide_eq_true; intros; f_equal; lia.
Qed.

(** The date columns of both renderers: every date that is the date of
    some key, once, in strictly ascending order. *)
Theorem date_columns {V} (heatmap : dict cell V) :
  let dates := sorted_dates heatmap in
  (∀ date, date ∈ dates ↔ ∃ hour, (date, hour) ∈ keys heatmap) ∧
  NoDup dates ∧
  StronglySorted (λ a b, datetime_leb a b = true ∧ a ≠ b) dates.
Proof.
  intros dates. split; [apply sorted_dates_elem_of|].
  split; [apply sorted_dates_NoDup|].
  pose proof (sorted_dates_sorted heatmap) as Hs.
  pose proof (sorted_dates_NoDup heatmap) as Hnd.
  fold dates in Hs, Hnd. clearbody dates.
  induction Hs as [|a l Hs IH Hall]; [constructor|].
  apply NoDup_cons in Hnd as [Hnotin Hnd].
  constructor; [by apply IH|].
  rewrite Forall_forall in Hall |- *. intros b Hb. split; [by apply Hall|].
  intros ->. done.
Qed.


(** ** The process *)

Section keeps_facts.
Context {E : Type} (R : proc E → proc E → Prop) (ok : failure → Prop).
Context `{!PreOrder R}.
Hypothesis R_frame : ∀ (s : proc E) err e, R s (mk_proc (p_world s) err e).

Lemma keeps_ret {A} (Q : A → Prop) (a : A) : Q a → keeps R ok Q (mret a).
Proof. intros Ha s. by split. Qed.

Lemma keeps_fail {A} (Q : A → Prop) (f : failure) : ok f → keeps R ok Q (fail f).
Proof. intros Hf s. by split. Qed.

Lemma keeps_bind {A B} (Q : A → Prop) (Q' : B → Prop) (m : P E A) (k : A → P E B) :
  keeps R ok Q m → (∀ a, Q a → keeps R ok Q' (k a)) → keeps R ok Q' (m ≫= k).
Proof.
  intros Hm Hk s. specialize (Hm s). unfold mbind, P_bind.
  destruct (m s) as [[f|a] s']; simpl in *; [done|].
  destruct Hm as [Hs Ha]. destruct (Hk a Ha s') as [Hs' Hr].
  split; [by etrans|done].
Qed.

Lemma keeps_eprint (Q : unit → Prop) (text : string) :
  Q () → keeps R ok Q (eprint text).
Proof. intros HQ s. split; [apply R_frame|done]. Qed.

Lemma keeps_ask {A} (Q : A → Prop) (q : E → A) :
  (∀ e, Q (q e)) → keeps R ok Q (ask q).
Proof. intros HQ s. split; [reflexivity|apply HQ]. Qed.

Lemma keeps_call {A} (Q : A → Prop) (c : E → A * E) :
  (∀ e, Q (c e).1) → keeps R ok Q (call c).
Proof.
  intros HQ s. unfold call. specialize (HQ (p_env s)).
  destruct (c (p_env s)) as [a e']. split; [apply R_frame|done].
Qed.

Lemma keeps_for_fold {A B} (I : B → Prop) (l : list A) (acc : B)
    (body : B → A → P E B) :
  I acc → (∀ b x, I b → x ∈ l → keeps R ok I (body b x)) →
  keeps R ok I (for_fold l acc body).
Proof.
  revert acc. induction l as [|x l IH]; intros acc Hacc Hbody.
  - by apply keeps_ret.
  - cbn [for_fold]. eapply keeps_bind; [apply Hbody; [done|left]|].
    intros b Hb. apply IH; [done|]. intros b' x' Hb' Hx'. apply Hbody; [done|by right].
Qed.
End keeps_facts.

Lemma keeps_weaken {E A} (R R' : proc E → proc E → Prop) (ok ok' : failure → Prop)
    (Q Q' : A → Prop) (m : P E A) :
  (∀ s s', R s s' → R' s s') → (∀ f, ok f → ok' f) → (∀ a, Q a → Q' a) →
  keeps R ok Q m → keeps R' ok' Q' m.
Proof.
  intros HR Hok HQ Hm s. destruct (Hm s) as [Hs Hr]. split; [by apply HR|].
  destruct (m s).1; auto.
Qed.

#[local] Instance same_world_preorder {E} : PreOrder (@same_world E).
Proof.
  split; [by intros s|]. intros s1 s2 s3 H12 H23. unfold same_world in *. congruence.
Qed.

#[local] Instance same_files_preorder {E} : PreOrder (@same_files E).
Proof.
  split; [by intros s|]. intros s1 s2 s3 H12 H23. unfold same_files in *. congruence.
Qed.

#[local] Instance only_file_preorder {E} (path : string) : PreOrder (@only_file E path).
Proof.
  split; [by intros s p|]. intros s1 s2 s3 H12 H23 p Hp.
  by rewrite (H23 p Hp), (H12 p Hp).
Qed.

(** *** Reading the log *)

Lemma parse_lines_omap {E} (env : environment E) (cutoff_date : option timestamp)
    (repo_name : string) (lines : list (list N)) (commits : list commit) :
  fold_left (parse_step env cutoff_date repo_name) lines commits
  = commits ++ omap (line_commit env cutoff_date repo_name) lines.
Proof.
  revert commits. induction lines as [|line lines IH]; intros commits.
  - by rewrite app_nil_r.
  - cbn [fold_left omap list_omap]. rewrite IH. unfold parse_step.
    destruct (line_commit env cutoff_date repo_name line); [|done].
    by rewrite <- app_assoc.
Qed.

Lemma omap_length_le {A B} (f : A → option B) (l : list A) :
  (length (omap f l) ≤ length l)%nat.
Proof.
  induction l as [|x l IH]; [done|]. cbn [omap list_omap].
  destruct (f x); simpl; lia.
Qed.

Lemma split_once_no_sep (sep : N) (line : list N) :
  sep ∉ line → split_once sep line = [line].
Proof.
  induction line as [|c line IH]; intros Hnotin; [done|].
  cbn [split_once]. rewrite decide_False by (intros ->; apply Hnotin; left).
  rewrite IH; [done|]. intros Hin. apply Hnotin. by right.
Qed.

Lemma line_commit_inv {E} (env : environment E) (cutoff_date : option timestamp)
    (repo_name : string) (line : list N) (c : commit) :
  line_commit env cutoff_date repo_name line = Some c →
  ∃ text dt, strptime env text = Some dt ∧ (length text ≤ 19)%nat ∧
             c = (mk_datetime (ts_year dt) (ts_month dt) (ts_day dt), ts_hour dt,
                  repo_name) ∧
             ∀ cutoff, cutoff_date = Some cutoff → timestamp_ltb dt cutoff = false.
Proof.
  unfold line_commit. repeat case_decide; try done.
  set (text := take 19 _).
  destruct (strptime env text) as [dt|] eqn:Hdt; [|done].
  intros Hc. exists text, dt. split; [done|].
  split; [subst text; rewrite length_take; lia|].
  destruct cutoff_date as [cutoff|].
  - destruct (timestamp_ltb dt cutoff) eqn:Hlt; [done|].
    split; [congruence|]. by intros ? [= <-].
  - split; [congruence|done].
Qed.

(** The log is read line by line, in order: the records of two stretches
    of lines are those of the first followed by those of the second, each
    line gives at most one record, and a line that is empty or has no [|]
    gives none, whatever else it holds. *)
Theorem log_lines_parse_independently {E} (env : environment E)
    (cutoff_date : option timestamp) (repo_name : string)
    (lines1 lines2 : list (list N)) :
  let parse := λ lines, fold_left (parse_step env cutoff_date repo_name) lines [] in
  parse (lines1 ++ lines2) = parse lines1 ++ parse lines2 ∧
  (length (parse lines1) ≤ length lines1)%nat ∧
  (∀ line, 124%N ∉ line → parse (lines1 ++ [line]) = parse lines1).
Proof.
  intros parse. subst parse. cbn beta.
  rewrite !parse_lines_omap. cbn [app]. split; [|split].
  - apply omap_app.
  - apply omap_length_le.
  - intros line Hline. rewrite !parse_lines_omap. cbn [app].
    rewrite omap_app. cbn [omap list_omap].
    unfold line_commit. case_decide; [by rewrite app_nil_r|].
    rewrite split_once_no_sep by done. cbn [length].
    rewrite decide_True by lia. by rewrite app_nil_r.
Qed.

Lemma get_git_commits_keeps {E} (env : environment E)
    (repo_path : string) (repo_name : option string) (days : option Z)
    (since until author : option string) :
  keeps same_world outside_failure
    (λ commits,
       Forall (λ c : commit,
                 c.2 = default (path_name env repo_path) repo_name ∧
                 ∃ text dt, strptime env text = Some dt ∧ (length text ≤ 19)%nat ∧
                            c.1 = (mk_datetime (ts_year dt) (ts_month dt) (ts_day dt),
                                   ts_hour dt))
              commits)
    (get_git_commits env repo_path repo_name days since until author).
Proof.
  unfold get_git_commits.
  eapply (keeps_bind _ _ (λ _, True)); [by apply keeps_call|].
  intros [stdout|msg| |name] _.
  - unfold parse_log.
    eapply (keeps_bind _ _ (λ _, True)).
    + destruct days as [d|]; [|by apply (keeps_ret _ _)].
      case_decide; [by apply (keeps_ret _ _)|].
      eapply (keeps_bind _ _ (λ _, True)); [by apply keeps_call|].
      intros now _. destruct (minus_days env now d).
      * by apply (keeps_ret _ _).
      * apply (keeps_fail _ _). right. by left.
    + intros cutoff_date _. case_decide; [by apply (keeps_ret _ _)|].
      apply (keeps_ret _ _). rewrite parse_lines_omap. cbn [app].
      apply Forall_forall. intros c Hc.
      apply list_elem_of_omap in Hc as (line & _ & Hline).
      apply line_commit_inv in Hline as (text & dt & Hdt & Hlen & -> & _).
      split; [done|]. by exists text, dt.
  - eapply (keeps_bind _ _ (λ _, True)); [by apply keeps_eprint|].
    intros _ _. by apply (keeps_ret _ _).
  - eapply (keeps_bind _ _ (λ _, True)); [by apply keeps_eprint|].
    intros _ _. apply (keeps_fail _ _). by left.
  - apply (keeps_fail _ _). right. right. by exists name.
Qed.

(** [get_git_commits] changes neither standard output nor any file; it
    ends by returning, by [sys.exit(1)], or with one of the two exceptions
    that nothing catches.  Every record it returns carries the repository
    name (that of the path when none is given) and the date and hour of a
    timestamp that [strptime] read from at most 19 characters. *)
Theorem get_git_commits_contained {E} (env : environment E)
    (repo_path : string) (repo_name : option string) (days : option Z)
    (since until author : option string) :
  keeps same_world outside_failure
    (λ commits,
       Forall (λ c : commit,
                 c.2 = default (path_name env repo_path) repo_name ∧
                 ∃ text dt, strptime env text = Some dt ∧ (length text ≤ 19)%nat ∧
                            c.1 = (mk_datetime (ts_year dt) (ts_month dt) (ts_day dt),
                                   ts_hour dt))
              commits)
    (get_git_commits env repo_path repo_name days since until author).
Proof. apply get_git_commits_keeps. Qed.

(** *** Choosing the repositories *)

Lemma resolve_step_eq {E} (env : environment E) (acc : list string) (x : string)
    (s : proc E) :
  ∃ err, resolve_step env acc x s
         = (inr (if valid_repo env (p_env s) x
                 then acc ++ [path_resolve env x (p_env s)] else acc),
            mk_proc (p_world s) err (p_env s)).
Proof.
  unfold resolve_step, valid_repo, mbind, P_bind, ask, eprint, mret, P_ret.
  cbn [p_env p_world p_stderr fst snd].
  destruct (path_exists env (path_resolve env x (p_env s)) (p_env s));
    cbn [negb andb]; [|by eexists].
  destruct (path_exists env _ (p_env s)); cbn [negb]; [|by eexists].
  exists (p_stderr s). by destruct s.
Qed.

Lemma resolve_fold {E} (env : environment E) (repos acc : list string) (s : proc E) :
  ∃ err, for_fold repos acc (resolve_step env) s
         = (inr (acc ++ ((λ x, path_resolve env x (p_env s))
                         <$> filter (λ x, valid_repo env (p_env s) x = true) repos)),
            mk_proc (p_world s) err (p_env s)).
Proof.
  revert acc s. induction repos as [|x repos IH]; intros acc s.
  - exists (p_stderr s). cbn. rewrite app_nil_r. by destruct s.
  - cbn [for_fold]. unfold mbind, P_bind.
    destruct (resolve_step_eq env acc x s) as [err ->].
    match goal with |- context [for_fold repos ?a _ ?s'] =>
      destruct (IH a s') as (err' & ->) end.
    exists err'. cbn [p_env p_world]. rewrite filter_cons.
    destruct (valid_repo env (p_env s) x).
    + rewrite decide_True by done. rewrite fmap_cons. by rewrite <- app_assoc.
    + by rewrite decide_False by done.
Qed.

Lemma resolve_repos_result {E} (env : environment E) (repos : option (list string))
    (s : proc E) :
  ∃ err,
    resolve_repos env repos s
    = (match repos with
       | Some (repo_str :: rest) =>
           match (λ x, path_resolve env x (p_env s))
                 <$> filter (λ x, valid_repo env (p_env s) x = true)
                       (repo_str :: rest) with
           | [] => inl (SystemExit 1)
           | repo_paths => inr repo_paths
           end
       | _ =>
           if path_exists env (path_join env (path_cwd env (p_env s)) ".git") (p_env s)
           then inr [path_cwd env (p_env s)]
           else inl (SystemExit 1)
       end,
       mk_proc (p_world s) err (p_env s)).
Proof.
  unfold resolve_repos.
  assert (Hcwd : ∃ err,
    ((repo_path ← ask (path_cwd env) ;
      is_repo ← ask (path_exists env (path_join env repo_path ".git")) ;
      if (is_repo : bool) then mret [repo_path]
      else eprint "错误: 当前目录不是 Git 仓库，请使用 --repo 参数指定仓库路径" ;;
           sys_exit 1)
     ≫= λ repo_paths : list string,
          match repo_paths with
          | [] => eprint "错误: 没有有效的仓库路径" ;; sys_exit 1
          | _ => mret repo_paths
          end) s
    = (if path_exists env (path_join env (path_cwd env (p_env s)) ".git") (p_env s)
       then inr [path_cwd env (p_env s)]
       else inl (SystemExit 1),
       mk_proc (p_world s) err (p_env s))).
  { unfold mbind, P_bind, ask, eprint, sys_exit, fail, mret, P_ret.
    cbn [p_env p_world p_stderr fst snd].
    destruct (path_exists env _ (p_env s)); [|by eexists].
    exists (p_stderr s). by destruct s. }
  destruct repos as [[|x rest]|]; [done| |done].
  unfold mbind at 1, P_bind at 1.
  destruct (resolve_fold env (x :: rest) [] s) as (err & ->). cbn [app].
  destruct (_ <$> filter _ (x :: rest)) as [|p ps].
  - unfold mbind, P_bind, eprint, sys_exit, fail. cbn [p_env p_world p_stderr].
    by eexists.
  - by exists err.
Qed.


(** *** [main] *)

Lemma same_world_same_files {E} (s s' : proc E) : same_world s s' → same_files s s'.
Proof. unfold same_world, same_files. by intros ->. Qed.

Lemma same_files_only_file {E} (path : string) (s s' : proc E) :
  same_files s s' → only_file path s s'.
Proof. unfold same_files, only_file. by intros -> p _. Qed.

Lemma keeps_lift_prints_only {E} (ok : failure → Prop) (m : M unit) :
  prints_only m → keeps (@same_files E) ok (λ _, True) (lift m).
Proof.
  intros Hm s. destruct (Hm (p_world s)) as [out Hout].
  unfold lift. rewrite Hout. by split.
Qed.

Lemma keeps_lift_html {E} (ok : failure → Prop) (percent_1f : Z → Z → string)
    (html_head html_tail : string) (heatmap : dict cell Z)
    (repo_stats : option (dict string Z))
    (repo_heatmap : option (dict cell (dict string Z))) (output_path : string) :
  heatmap ≠ [] →
  keeps (@only_file E output_path) ok (λ _, True)
    (lift (generate_html_heatmap percent_1f html_head html_tail heatmap output_path
             repo_stats repo_heatmap)).
Proof.
  intros Hne s.
  destruct (html_document_written percent_1f html_head html_tail heatmap repo_stats
              repo_heatmap output_path (p_world s) Hne) as [rest Hw].
  unfold lift. rewrite Hw. split; [|done].
  intros p Hp. cbn [snd p_world files]. by rewrite lookup_insert_ne.
Qed.

Lemma collect_step_keeps {E} (env : environment E) (args : cli_args)
    (all_commits : list commit) (repo_path : string) :
  keeps same_files outside_failure (λ _, True)
    (collect_step env args all_commits repo_path).
Proof.
  unfold collect_step.
  eapply (keeps_bind _ _ (λ _, True));
    [apply keeps_lift_prints_only, prints_only_print|]. intros _ _.
  eapply (keeps_bind _ _ (λ _, True)).
  { eapply keeps_weaken; [apply same_world_same_files| | |apply get_git_commits_keeps];
      done. }
  intros commits _.
  eapply (keeps_bind _ _ (λ _, True));
    [apply keeps_lift_prints_only, prints_only_print|]. intros _ _.
  by apply (keeps_ret _ _).
Qed.

Lemma resolve_repos_keeps {E} (env : environment E) (repos : option (list string)) :
  keeps same_world (λ f, f = SystemExit 1) (λ _, True) (resolve_repos env repos).
Proof.
  intros s. destruct (resolve_repos_result env repos s) as [err ->].
  split; [done|]. cbn [fst].
  destruct repos as [[|x rest]|]; repeat case_match; first [done | congruence].
Qed.


Lemma filter_all_false {A} (f : A → bool) (l : list A) :
  Forall (λ x, f x = false) l → filter (λ x, f x = true) l = [].
Proof.
  induction 1 as [|x l Hx _ IH]; [done|].
  rewrite filter_cons_False; [done|]. by rewrite Hx.
Qed.

(** With no usable repository [main] ends with exit status 1 before git
    is run: when every [--repo] argument names a path that does not exist
    or has no [.git] entry, or when there is no [--repo] argument and the
    working directory has no [.git] entry.  Only standard error has been
    written to. *)
Theorem main_exit_without_repository {E} (env : environment E)
    (percent_1f : Z → Z → string) (html_head html_tail : string) (args : cli_args)
    (s : proc E) :
  match arg_repos args with
  | Some (repo_str :: rest) =>
      Forall (λ x, valid_repo env (p_env s) x = false) (repo_str :: rest)
  | _ => path_exists env (path_join env (path_cwd env (p_env s)) ".git") (p_env s)
         = false
  end →
  ∃ err, main env percent_1f html_head html_tail args s
         = (inl (SystemExit 1), mk_proc (p_world s) err (p_env s)).
Proof.
  intros Hnone. unfold main, mbind at 1, P_bind at 1.
  destruct (resolve_repos_result env (arg_repos args) s) as [err ->].
  exists err.
  destruct (arg_repos args) as [[|x rest]|]; try by rewrite Hnone.
  by rewrite (filter_all_false _ _ Hnone).
Qed.

Lemma main_exit_without_repository_witness :
  ∃ err, main example_env (λ _ _, "") "" ""
           (mk_cli_args None (Some ["c"; "d"]) None None None None) example_start
         = (inl (SystemExit 1), mk_proc (p_world example_start) err ()).
Proof.
  apply (main_exit_without_repository example_env (λ _ _, "") "" ""
           (mk_cli_args None (Some ["c"; "d"]) None None None None) example_start).
  cbn [arg_repos]. repeat constructor.
Defined.

Lemma get_git_commits_nothing {E} (env : environment E) (repo_path : string)
    (repo_name : option string) (days : option Z) (since until author : option string) :
  (∀ cmd cwd e, (run_git env cmd cwd e).1 = Completed []
                ∨ ∃ msg, (run_git env cmd cwd e).1 = CalledProcessError msg) →
  keeps same_world (λ f, f = OverflowError) (λ commits, commits = [])
    (get_git_commits env repo_path repo_name days since until author).
Proof.
  intros Hgit. unfold get_git_commits. cbn zeta.
  eapply (keeps_bind _ _ (λ r, r = Completed [] ∨ ∃ msg, r = CalledProcessError msg)).
  { apply keeps_call; [done|]. intros e. apply Hgit. }
  intros result [->|[msg ->]].
  - unfold parse_log. eapply (keeps_bind _ _ (λ _, True)).
    + destruct days as [d|]; [|by apply (keeps_ret _ _)].
      case_decide; [by apply (keeps_ret _ _)|].
      eapply (keeps_bind _ _ (λ _, True)); [by apply keeps_call|]. intros now _.
      destruct (minus_days env now d); [by apply (keeps_ret _ _)|].
      by apply (keeps_fail _ _).
    + intros cutoff _. rewrite decide_True by done. by apply (keeps_ret _ _).
  - eapply (keeps_bind _ _ (λ _, True)); [by apply keeps_eprint|]. intros _ _.
    by apply (keeps_ret _ _).
Qed.



(** ** A worked example

    Four commits, two sources, two days. *)

Example example_aggregate :
  generate_heatmap
    [(mk_datetime 2024 1 1, 9, "repoA"); (mk_datetime 2024 1 1, 9, "repoA");
     (mk_datetime 2024 1 1, 14, "repoB"); (mk_datetime 2024 1 2, 9, "repoA")]
  = ([((mk_datetime 2024 1 1, 9), 2); ((mk_datetime 2024 1 1, 14), 1);
      ((mk_datetime 2024 1 2, 9), 1)],
     [((mk_datetime 2024 1 1, 9), [("repoA", 2)]);
      ((mk_datetime 2024 1 1, 14), [("repoB", 1)]);
      ((mk_datetime 2024 1 2, 9), [("repoA", 1)])],
     [("repoA", 3); ("repoB", 1)]).
Proof. reflexivity. Qed.

Example example_scale_and_columns :
  let heatmap := [((mk_datetime 2024 1 1, 9), 2); ((mk_datetime 2024 1 1, 14), 1);
                  ((mk_datetime 2024 1 2, 9), 1)] in
  ∀ w, py_max (values heatmap) w = (inr 2, w) ∧
       py_max_by_value (items heatmap) w = (inr ((mk_datetime 2024 1 1, 9), 2), w) ∧
       sorted_dates heatmap = [mk_datetime 2024 1 1; mk_datetime 2024 1 2] ∧
       html_level 2 1 = 2 ∧ html_level 2 2 = 4.
Proof. intros heatmap w. repeat split. Qed.

Example example_year_row :
  compute_year_colspans
    [mk_datetime 2023 12 30; mk_datetime 2023 12 31; mk_datetime 2024 1 1]
  = [(2023, 2); (2024, 1)] ∧
  html_date_row [mk_datetime 2023 12 31; mk_datetime 2024 1 1]
  = [date_header_cell false (mk_datetime 2023 12 31);
     date_header_cell true (mk_datetime 2024 1 1)].
Proof. split; reflexivity. Qed.

(** The order of the records shows in the order of the keys, not in the
    maps. *)
Example example_insertion_order :
  let a : commit := (mk_datetime 2024 1 1, 9, "repoA") in
  let b : commit := (mk_datetime 2024 1 2, 14, "repoB") in
  generate_heatmap [a; b] ≠ generate_heatmap [b; a] ∧
  maps_of (generate_heatmap [a; b]) = maps_of (generate_heatmap [b; a]).
Proof.
  intros a b. split.
  - intros Heq. vm_compute in Heq. discriminate Heq.
  - unfold generate_heatmap. rewrite !generate_heatmap_maps.
    apply fold_left_maps_step_perm, perm_swap.
Qed.
